(** * Model-comparison engine: token estimation, response validation,
      invocation fallback, cost computation and report aggregation.

    A shallow embedding of [src/tokenizers.py], [src/model_registry.py],
    [src/evaluator.py] and [src/report_generator.py].

    Conventions of the embedding.
    - A Python [str] is a [string]; each character is read as the code point
      of the same number, so the texts covered are those over code points
      0..255.
    - A Python [int] is a [Z].  A finite Python [float] is an exact rational
      [Q] kept in lowest terms: the arithmetic of the source is carried out
      without binary rounding error.  [inf] and [nan] are explicit values of
      [pyfloat].
    - Code that may raise returns a [result]; the exception carries its class
      and its [str()].
    - What lies outside the repository is a parameter of the embedding: the
      Bedrock client, the optional tokenizer module, the clock and the id
      source are fields of [Invocation.env]. *)

From Stdlib Require Import Bool Arith ZArith QArith Qround Qreduction.
From Stdlib Require Import List Ascii String DecimalString Lia Lqa.
From Stdlib Require Import OrdersEx Sorted.
Import ListNotations.
Set Warnings "-register-all".
Close Scope Q_scope.
Open Scope string_scope.
Open Scope nat_scope.

(* ================================================================== *)
(** * Python strings                                                    *)
(* ================================================================== *)

Module PyStr.

Definition code (c : ascii) : nat := nat_of_ascii c.

  (** [str.isspace] on one character (code points below 256). *)
Definition isspace (c : ascii) : bool :=
    let n := code c in
    ((9 <=? n) && (n <=? 13)) || ((28 <=? n) && (n <=? 32))
    || (n =? 133) || (n =? 160).

  (** [str.lower] on one character (code points below 256). *)
Definition lower_char (c : ascii) : ascii :=
    let n := code c in
    if ((65 <=? n) && (n <=? 90))
       || ((192 <=? n) && (n <=? 222) && negb (n =? 215))
    then ascii_of_nat (n + 32) else c.

Fixpoint lower (s : string) : string :=
    match s with
    | EmptyString => EmptyString
    | String c r => String (lower_char c) (lower r)
    end.

Definition dquote : ascii := ascii_of_nat 34.
Definition backslash : ascii := ascii_of_nat 92.
Definition backtick : ascii := ascii_of_nat 96.

Definition chars (s : string) : list ascii := list_ascii_of_string s.
Definition of_chars (l : list ascii) : string := string_of_list_ascii l.

Fixpoint lstrip_chars (l : list ascii) : list ascii :=
    match l with
    | c :: r => if isspace c then lstrip_chars r else l
    | [] => []
    end.

  (** [s.strip()] *)
Definition strip (s : string) : string :=
    of_chars (rev (lstrip_chars (rev (lstrip_chars (chars s))))).

  (** [s.startswith(p)] *)
Definition startswith (p s : string) : bool := String.prefix p s.

Fixpoint drop (n : nat) (s : string) : string :=
    match n, s with
    | O, _ => s
    | S k, String _ r => drop k r
    | S _, EmptyString => EmptyString
    end.

Fixpoint take (n : nat) (s : string) : string :=
    match n, s with
    | S k, String c r => String c (take k r)
    | _, _ => EmptyString
    end.

  (** [s[i:j]] for [0 <= i], [0 <= j]. *)
Definition slice (i j : nat) (s : string) : string := take (j - i) (drop i s).

  (** [s.endswith(p)] *)
Definition endswith (p s : string) : bool :=
    (String.length p <=? String.length s)
    && String.eqb (drop (String.length s - String.length p) s) p.

  (** [s.find(p)]: index of the first occurrence, [None] for -1. *)
Fixpoint find_from (p s : string) (i : nat) : option nat :=
    if startswith p s then Some i
    else match s with
         | EmptyString => None
         | String _ r => find_from p r (S i)
         end.

Definition find (p s : string) : option nat := find_from p s 0.

  (** [p in s] *)
Definition contains (p s : string) : bool :=
    match find p s with Some _ => true | None => false end.

  (** [s.rfind(c)] for a one-character needle. *)
Fixpoint rfind_from (c : ascii) (s : string) (i : nat) (acc : option nat)
    : option nat :=
    match s with
    | EmptyString => acc
    | String d r =>
        rfind_from c r (S i) (if Ascii.eqb c d then Some i else acc)
    end.

Definition rfind (c : ascii) (s : string) : option nat :=
    rfind_from c s 0 None.

  (** [len(s.split())]: the number of maximal runs of non-space characters. *)
Fixpoint count_words (inword : bool) (l : list ascii) : nat :=
    match l with
    | [] => 0
    | c :: r =>
        if isspace c then count_words false r
        else if inword then count_words true r
             else S (count_words true r)
    end.

Definition split_len (s : string) : nat := count_words false (chars s).

End PyStr.

(* ================================================================== *)
(** * Python numbers                                                    *)
(* ================================================================== *)

Module PyNum.

Definition ZQ (z : Z) : Q := inject_Z z.
Definition NQ (n : nat) : Q := inject_Z (Z.of_nat n).

  (** [int(x)] of a finite float: truncation towards zero. *)
Definition trunc (q : Q) : Z := Z.quot (Qnum q) (Zpos (Qden q)).

  (** Nearest integer, ties to the even one: [round(x)]. *)
Definition round_half_even (q : Q) : Z :=
    let f := Qfloor q in
    let d := Qred (q - inject_Z f)%Q in
    match Qcompare d (1 # 2)%Q with
    | Lt => f
    | Gt => (f + 1)%Z
    | Eq => if Z.even f then f else (f + 1)%Z
    end.

  (** [round(x, 6)] of a finite float. *)
Definition round6_Q (q : Q) : Q :=
    Qred (inject_Z (round_half_even (q * inject_Z 1000000)%Q)
          / inject_Z 1000000)%Q.

  (** A Python float: finite, signed infinity, or not-a-number. *)
Inductive pyfloat : Type :=
  | FFin (q : Q)
  | FInf (neg : bool)
  | FNaN.

Definition Qsign_neg (q : Q) : bool := (Qnum q <? 0)%Z.
Definition Qis_zero (q : Q) : bool := (Qnum q =? 0)%Z.

Definition fmul (a b : pyfloat) : pyfloat :=
    match a, b with
    | FNaN, _ | _, FNaN => FNaN
    | FFin x, FFin y => FFin (Qred (x * y)%Q)
    | FFin x, FInf n | FInf n, FFin x =>
        if Qis_zero x then FNaN else FInf (xorb n (Qsign_neg x))
    | FInf n, FInf m => FInf (xorb n m)
    end.

Definition fadd (a b : pyfloat) : pyfloat :=
    match a, b with
    | FNaN, _ | _, FNaN => FNaN
    | FFin x, FFin y => FFin (Qred (x + y)%Q)
    | FFin _, FInf n | FInf n, FFin _ => FInf n
    | FInf n, FInf m => if Bool.eqb n m then FInf n else FNaN
    end.

  (** [round(x, 6)]: infinities and nan are returned unchanged. *)
Definition round6 (a : pyfloat) : pyfloat :=
    match a with
    | FFin q => FFin (round6_Q q)
    | other => other
    end.

  (** [n / 1000.0] for an int [n]. *)
Definition per_thousand (n : Z) : pyfloat := FFin (Qred (ZQ n / 1000)%Q).

Definition fzero : pyfloat := FFin 0%Q.

End PyNum.

(* ================================================================== *)
(** * tokenizers.py                                                     *)
(* ================================================================== *)

Module Tokenizers.
Import PyStr PyNum.

  (** The optional [tiktoken] module.  [None]: the import failed.
      Otherwise the backend maps an encoding name and a text to
      [len(encoding.encode(text))], or to [None] when [get_encoding] or
      [encode] raises. *)
Definition tiktoken_module : Type := option (string -> string -> option nat).

Section WithBackend.
Variable tiktoken : tiktoken_module.

Definition _count_with_tiktoken (text encoding_name : string) : option nat :=
      match tiktoken with
      | None => None
      | Some backend => backend encoding_name text
      end.

Definition _heuristic_count_anthropic (text : string) : Z :=
      let words := split_len text in
      let chars := String.length text in
      trunc ((NQ chars / 4) + (NQ words * 0.25))%Q.

Definition _heuristic_count_llama (text : string) : Z :=
      let words := split_len text in
      let chars := String.length text in
      trunc ((NQ chars / 3.5) + (NQ words * 0.3))%Q.

Definition _heuristic_count (text : string) : Z :=
      match text with
      | EmptyString => 0%Z
      | _ =>
          let words := split_len text in
          let chars := String.length text in
          let token_estimate :=
            trunc ((NQ chars / 4) * 0.7 + (NQ words * 1.3) * 0.3)%Q in
          Z.max 1 token_estimate
      end.

    (** [a or b] where [a] is [None] or an int. *)
Definition or_else (a : option nat) (b : Z) : Z :=
      match a with
      | Some (S n) => Z.of_nat (S n)
      | _ => b
      end.

Definition count_tokens (model_tokenizer text : string) : Z :=
      let tokenizer_type := strip (lower model_tokenizer) in
      if String.eqb tokenizer_type "anthropic" then
        or_else (_count_with_tiktoken text "cl100k_base")
                (_heuristic_count_anthropic text)
      else if String.eqb tokenizer_type "llama" then
        or_else (_count_with_tiktoken text "gpt2") (_heuristic_count_llama text)
      else if String.eqb tokenizer_type "heuristic"
              || String.eqb tokenizer_type "titan"
              || String.eqb tokenizer_type "amazon"
              || String.eqb tokenizer_type "nova" then
        _heuristic_count text
      else if String.eqb tokenizer_type "qwen" then
        or_else (_count_with_tiktoken text "gpt2") (_heuristic_count_llama text)
      else if String.eqb tokenizer_type "alibaba" then
        or_else (_count_with_tiktoken text "gpt2") (_heuristic_count_llama text)
      else _heuristic_count text.

End WithBackend.


End Tokenizers.

(* ================================================================== *)
(** * Python values, exceptions and builtins                            *)
(* ================================================================== *)

Module Py.
Import PyStr PyNum.

(** Values a YAML document or a keyword argument can hold. *)
Inductive pyval : Type :=
| VNone
| VBool (b : bool)
| VInt (z : Z)
| VFloat (f : pyfloat)
| VStr (s : string)
| VList (l : list pyval)
| VDict (d : list (string * pyval)).

Definition pydict : Type := list (string * pyval).

(** A raised exception.  [ClientError] is botocore's; its [response]
    carries [Error.Code] and [Error.Message] when the service sent them.
    [PyError] is any other subclass of [Exception]; [BaseError] is an
    exception that is not a subclass of [Exception] (KeyboardInterrupt,
    SystemExit). *)
Inductive exn : Type :=
| ClientError (code message : option string) (text : string)
| PyError (cls : string) (text : string)
| BaseError (cls : string) (text : string).

(** [str(e)] *)
Definition exn_str (e : exn) : string :=
  match e with
  | ClientError _ _ t => t
  | PyError _ t => t
  | BaseError _ t => t
  end.

Inductive result (A : Type) : Type :=
| Ok (a : A)
| Raise (e : exn).
Arguments Ok {A} a.
Arguments Raise {A} e.

Definition bind {A B : Type} (r : result A) (k : A -> result B) : result B :=
  match r with
  | Ok a => k a
  | Raise e => Raise e
  end.

Notation "x <- c ;; k" := (bind c (fun x => k))
  (at level 61, c at next level, right associativity).

Definition type_name (v : pyval) : string :=
  match v with
  | VNone => "NoneType"
  | VBool _ => "bool"
  | VInt _ => "int"
  | VFloat _ => "float"
  | VStr _ => "str"
  | VList _ => "list"
  | VDict _ => "dict"
  end.

Definition no_attribute (v : pyval) (attr : string) : exn :=
  PyError "AttributeError"
    ("'" ++ type_name v ++ "' object has no attribute '" ++ attr ++ "'").

(** [f"{v}"].  The texts of floats and of containers are left schematic:
    nothing below inspects them. *)
Definition py_format (v : pyval) : string :=
  match v with
  | VNone => "None"
  | VBool true => "True"
  | VBool false => "False"
  | VInt z => NilZero.string_of_int (Z.to_int z)
  | VStr s => s
  | VFloat _ => "<float>"
  | VList _ => "<list>"
  | VDict _ => "<dict>"
  end.

(** [d.get(key)] on a dict: the value bound to [key], if any. *)
Fixpoint lookup (key : string) (d : pydict) : option pyval :=
  match d with
  | [] => None
  | (k, v) :: r => if String.eqb k key then Some v else lookup key r
  end.

(** [d.get(key, default)] *)
Definition dict_get (d : pydict) (key : string) (default : pyval) : pyval :=
  match lookup key d with
  | Some v => v
  | None => default
  end.

(** [v.get(key, default)] on an arbitrary value: only a dict has [get]. *)
Definition py_get (v : pyval) (key : string) (default : pyval) : result pyval :=
  match v with
  | VDict d => Ok (dict_get d key default)
  | other => Raise (no_attribute other "get")
  end.

(** [v.lower()] on an arbitrary value: only a str has [lower]. *)
Definition py_lower (v : pyval) : result string :=
  match v with
  | VStr s => Ok (lower s)
  | other => Raise (no_attribute other "lower")
  end.

(** Truth value of [v] (as tested by [if v]). *)
Definition truthy (v : pyval) : bool :=
  match v with
  | VNone => false
  | VBool b => b
  | VInt z => negb (z =? 0)%Z
  | VFloat (FFin q) => negb (Qis_zero q)
  | VFloat _ => true
  | VStr s => negb (String.eqb s EmptyString)
  | VList l => match l with [] => false | _ => true end
  | VDict d => match d with [] => false | _ => true end
  end.

(** ** [float(str)]: the literal grammar of the language reference. *)

Definition is_digit (c : ascii) : bool :=
  let n := code c in (48 <=? n) && (n <=? 57).

Definition digit_val (c : ascii) : Z := Z.of_nat (code c - 48).

(** [digitpart ::= digit (["_"] digit)*]: the value read so far, the number
    of digits, and the rest of the input. *)
Fixpoint digitpart_rest (l : list ascii) (acc : Z) (n : nat)
  : Z * nat * list ascii :=
  match l with
  | c :: r =>
      if is_digit c then digitpart_rest r (acc * 10 + digit_val c)%Z (S n)
      else if Ascii.eqb c "_" then
        match r with
        | d :: r' =>
            if is_digit d
            then digitpart_rest r' (acc * 10 + digit_val d)%Z (S n)
            else (acc, n, l)
        | [] => (acc, n, l)
        end
      else (acc, n, l)
  | [] => (acc, n, l)
  end.

Definition digitpart (l : list ascii) : option (Z * nat * list ascii) :=
  match l with
  | c :: r =>
      if is_digit c then Some (digitpart_rest r (digit_val c) 1) else None
  | [] => None
  end.

Definition sign_of (l : list ascii) : bool * list ascii :=
  match l with
  | c :: r =>
      if Ascii.eqb c "-" then (true, r)
      else if Ascii.eqb c "+" then (false, r)
      else (false, l)
  | [] => (false, l)
  end.

Definition pow10 (e : Z) : Q :=
  match e with
  | Z0 => 1%Q
  | Zpos p => inject_Z (10 ^ Zpos p)
  | Zneg p => (1 / inject_Z (10 ^ Zpos p))%Q
  end.

(** [exponent ::= ("e" | "E") ["+" | "-"] digitpart], applied to [m]. *)
Definition with_exponent (m : Q) (l : list ascii) : option Q :=
  match l with
  | [] => Some m
  | c :: r =>
      if Ascii.eqb c "e" || Ascii.eqb c "E" then
        let '(neg, r1) := sign_of r in
        match digitpart r1 with
        | Some (e, _, []) =>
            Some (m * pow10 (if neg then - e else e))%Q
        | _ => None
        end
      else None
  end.

(** [floatnumber], unsigned. *)
Definition floatnumber (l : list ascii) : option Q :=
  match digitpart l with
  | Some (ip, _, r) =>
      match r with
      | c :: r1 =>
          if Ascii.eqb c "." then
            match digitpart r1 with
            | Some (fp, k, r2) =>
                with_exponent
                  (inject_Z ip + inject_Z fp / inject_Z (10 ^ Z.of_nat k))%Q r2
            | None => with_exponent (inject_Z ip) r1
            end
          else with_exponent (inject_Z ip) r
      | [] => Some (inject_Z ip)
      end
  | None =>
      match l with
      | c :: r1 =>
          if Ascii.eqb c "." then
            match digitpart r1 with
            | Some (fp, k, r2) =>
                with_exponent (inject_Z fp / inject_Z (10 ^ Z.of_nat k))%Q r2
            | None => None
            end
          else None
      | [] => None
      end
  end.

Definition float_of_string (s : string) : option pyfloat :=
  let '(neg, body) := sign_of (chars (strip s)) in
  let word := lower (of_chars body) in
  if String.eqb word "inf" || String.eqb word "infinity" then Some (FInf neg)
  else if String.eqb word "nan" then Some FNaN
  else match floatnumber body with
       | Some q => Some (FFin (Qred (if neg then - q else q)%Q))
       | None => None
       end.

(** [float(v)] *)
Definition py_float (v : pyval) : result pyfloat :=
  match v with
  | VBool b => Ok (FFin (if b then 1 else 0)%Q)
  | VInt z => Ok (FFin (inject_Z z))
  | VFloat f => Ok f
  | VStr s =>
      match float_of_string s with
      | Some f => Ok f
      | None =>
          Raise (PyError "ValueError"
                   ("could not convert string to float: '" ++ s ++ "'"))
      end
  | other =>
      Raise (PyError "TypeError"
               ("float() argument must be a string or a real number, not '"
                ++ type_name other ++ "'"))
  end.

End Py.

(* ================================================================== *)
(** * model_registry.py                                                 *)
(* ================================================================== *)

Module ModelRegistry.
Import PyNum Py.

Record pricing : Type := {
  input_per_1k_tokens_usd : pyfloat;
  output_per_1k_tokens_usd : pyfloat
}.

Definition get_model_pricing (model : pydict) : result pricing :=
  let pricing := dict_get model "pricing" (VDict []) in
  a <- py_get pricing "input_per_1k_tokens_usd" (VFloat (FFin 0)) ;;
  i <- py_float a ;;
  b <- py_get pricing "output_per_1k_tokens_usd" (VFloat (FFin 0)) ;;
  o <- py_float b ;;
  Ok {| input_per_1k_tokens_usd := i; output_per_1k_tokens_usd := o |}.

Definition get_generation_params (model : pydict) : pyval :=
  dict_get model "generation_params" (VDict []).

(** [list(v)]: the items of a list, the characters of a str, the keys of a
    dict; anything else is not iterable. *)
Definition py_list (v : pyval) : result (list pyval) :=
  match v with
  | VList l => Ok l
  | VStr s =>
      Ok (map (fun c => VStr (String c EmptyString)) (PyStr.chars s))
  | VDict d => Ok (map (fun kv => VStr (fst kv)) d)
  | other =>
      Raise (PyError "TypeError"
               ("'" ++ type_name other ++ "' object is not iterable"))
  end.

(** [list_models], on the loaded configuration. *)
Definition list_models (config : pydict) : result (list pyval) :=
  py_list (dict_get config "models" (VList [])).

(** [v == name] for a str [name]. *)
Definition is_str (name : string) (v : pyval) : bool :=
  match v with
  | VStr s => String.eqb s name
  | _ => false
  end.

(** The loop of [get_model_by_name]. *)
Fixpoint first_named (name : string) (models : list pyval)
  : result (option pyval) :=
  match models with
  | [] => Ok None
  | model :: rest =>
      n <- py_get model "name" VNone ;;
      if is_str name n then Ok (Some model) else first_named name rest
  end.

Definition get_model_by_name (config : pydict) (name : string)
  : result (option pyval) :=
  models <- list_models config ;;
  first_named name models.

(** The loop of [get_models_by_names]. *)
Fixpoint collect_named (config : pydict) (names : list string)
  : result (list pyval) :=
  match names with
  | [] => Ok []
  | name :: rest =>
      model <- get_model_by_name config name ;;
      found <- collect_named config rest ;;
      Ok (match model with
          | Some m => if truthy m then m :: found else found
          | None => found
          end)
  end.

Definition get_models_by_names (config : pydict) (names : list string)
  : result (list pyval) :=
  if existsb (String.eqb "all") names then list_models config
  else collect_named config names.

End ModelRegistry.

(* ================================================================== *)
(** * [json.loads] as a recogniser                                      *)
(* ================================================================== *)

(** The validator only asks whether [json.loads] raises, so the decoder is
    embedded as a recogniser that also reports the kind of the top-level
    value.  It follows the standard decoder: the whitespace set is space,
    tab, line feed and carriage return; strings are strict (no raw control
    character); the literals [NaN], [Infinity] and [-Infinity] are accepted;
    anything but whitespace after the value is an error.  The interpreter's
    limits (recursion depth, digits per integer) are not part of the
    embedding. *)

Module Json.
Import PyStr.

Inductive kind : Type := KObject | KArray | KScalar.

Definition is_ws (c : ascii) : bool :=
  let n := code c in (n =? 32) || (n =? 9) || (n =? 10) || (n =? 13).

Fixpoint skip_ws (l : list ascii) : list ascii :=
  match l with
  | c :: r => if is_ws c then skip_ws r else l
  | [] => []
  end.

Definition is_digit (c : ascii) : bool :=
  let n := code c in (48 <=? n) && (n <=? 57).

Definition is_hex (c : ascii) : bool :=
  let n := code c in
  ((48 <=? n) && (n <=? 57)) || ((65 <=? n) && (n <=? 70))
  || ((97 <=? n) && (n <=? 102)).

Fixpoint skip_digits (l : list ascii) : list ascii :=
  match l with
  | c :: r => if is_digit c then skip_digits r else l
  | [] => []
  end.

(** [l] starts with the characters of [p]: the rest of [l]. *)
Fixpoint eat (p : string) (l : list ascii) : option (list ascii) :=
  match p with
  | EmptyString => Some l
  | String c p' =>
      match l with
      | d :: r => if Ascii.eqb c d then eat p' r else None
      | [] => None
      end
  end.

(** The body of a string, after its opening quote: the input after the
    closing quote. *)
Fixpoint scanstring (l : list ascii) : option (list ascii) :=
  match l with
  | [] => None
  | c :: r =>
      if Ascii.eqb c dquote then Some r
      else if Ascii.eqb c backslash then
        match r with
        | [] => None
        | e :: r1 =>
            if Ascii.eqb e "u" then
              match r1 with
              | h1 :: h2 :: h3 :: h4 :: r2 =>
                  if is_hex h1 && is_hex h2 && is_hex h3 && is_hex h4
                  then scanstring r2
                  else None
              | _ => None
              end
            else if Ascii.eqb e dquote || Ascii.eqb e backslash || Ascii.eqb e "/"
                    || Ascii.eqb e "b" || Ascii.eqb e "f" || Ascii.eqb e "n"
                    || Ascii.eqb e "r" || Ascii.eqb e "t"
            then scanstring r1
            else None
        end
      else if code c <? 32 then None
      else scanstring r
  end.

(** The number pattern at the head of [l]: an optional minus sign; a zero,
    or a non-zero digit and any digits; optionally a point and one or more
    digits; optionally an exponent mark, a sign and one or more digits. *)
Definition match_number (l : list ascii) : option (list ascii) :=
  let l1 := match l with
            | c :: r => if Ascii.eqb c "-" then r else l
            | [] => l
            end in
  match l1 with
  | [] => None
  | c :: r =>
      if is_digit c then
        let after_int := if Ascii.eqb c "0" then r else skip_digits r in
        let after_frac :=
          match after_int with
          | p :: d :: r2 =>
              if Ascii.eqb p "." && is_digit d then skip_digits r2
              else after_int
          | _ => after_int
          end in
        let after_exp :=
          match after_frac with
          | e :: r3 =>
              if Ascii.eqb e "e" || Ascii.eqb e "E" then
                let r4 := match r3 with
                          | sg :: r5 =>
                              if Ascii.eqb sg "-" || Ascii.eqb sg "+"
                              then r5 else r3
                          | [] => r3
                          end in
                match r4 with
                | d :: r6 => if is_digit d then skip_digits r6 else after_frac
                | [] => after_frac
                end
              else after_frac
          | [] => after_frac
          end in
        Some after_exp
      else None
  end.

Definition first_of {A : Type} (a b : option A) : option A :=
  match a with Some _ => a | None => b end.

(** The literal names, chosen by the first character. *)
Definition literal (l : list ascii) : option (list ascii) :=
  match l with
  | [] => None
  | c :: _ =>
      if Ascii.eqb c "n" then eat "null" l
      else if Ascii.eqb c "t" then eat "true" l
      else if Ascii.eqb c "f" then eat "false" l
      else if Ascii.eqb c "N" then eat "NaN" l
      else if Ascii.eqb c "I" then eat "Infinity" l
      else if Ascii.eqb c "-" then eat "-Infinity" l
      else None
  end.

(** What the scanner is about to read. *)
Inductive mode : Type :=
| MValue      (* any JSON term *)
| MMembers    (* a key of an object, then the rest of the object *)
| MElements.  (* an element of an array, then the rest of the array *)

(** [fuel] bounds the number of nested calls; a call on [l] needs at most
    two for each character of [l], and one more in [MElements]. *)
Fixpoint scan (fuel : nat) (m : mode) (l : list ascii)
  : option (kind * list ascii) :=
  match fuel with
  | O => None
  | S f =>
      match m with
      | MValue =>
          match l with
          | [] => None
          | c :: r =>
              if Ascii.eqb c dquote then
                match scanstring r with
                | Some r1 => Some (KScalar, r1)
                | None => None
                end
              else if Ascii.eqb c "{" then
                match skip_ws r with
                | d :: r1 =>
                    if Ascii.eqb d "}" then Some (KObject, r1)
                    else match scan f MMembers (d :: r1) with
                         | Some (_, r2) => Some (KObject, r2)
                         | None => None
                         end
                | [] => None
                end
              else if Ascii.eqb c "[" then
                match skip_ws r with
                | d :: r1 =>
                    if Ascii.eqb d "]" then Some (KArray, r1)
                    else match scan f MElements (d :: r1) with
                         | Some (_, r2) => Some (KArray, r2)
                         | None => None
                         end
                | [] => None
                end
              else
                match first_of (literal l) (match_number l) with
                | Some r1 => Some (KScalar, r1)
                | None => None
                end
          end
      | MMembers =>
          match l with
          | q :: r =>
              if Ascii.eqb q dquote then
                match scanstring r with
                | Some r1 =>
                    match skip_ws r1 with
                    | colon :: r2 =>
                        if Ascii.eqb colon ":" then
                          match scan f MValue (skip_ws r2) with
                          | Some (_, r3) =>
                              match skip_ws r3 with
                              | d :: r4 =>
                                  if Ascii.eqb d "}" then Some (KObject, r4)
                                  else if Ascii.eqb d "," then
                                    scan f MMembers (skip_ws r4)
                                  else None
                              | [] => None
                              end
                          | None => None
                          end
                        else None
                    | [] => None
                    end
                | None => None
                end
              else None
          | [] => None
          end
      | MElements =>
          match scan f MValue l with
          | Some (_, r1) =>
              match skip_ws r1 with
              | d :: r2 =>
                  if Ascii.eqb d "]" then Some (KArray, r2)
                  else if Ascii.eqb d "," then scan f MElements (skip_ws r2)
                  else None
              | [] => None
              end
          | None => None
          end
      end
  end.

(** [json.loads(s)]: the kind of the decoded value, [None] when the decoder
    raises [JSONDecodeError]. *)
Definition loads (s : string) : option kind :=
  let l := skip_ws (chars s) in
  match scan (2 * List.length l + 2) MValue l with
  | Some (k, r) =>
      match skip_ws r with
      | [] => Some k
      | _ => None
      end
  | None => None
  end.

Definition parses (s : string) : bool :=
  match loads s with Some _ => true | None => false end.

End Json.

(* ================================================================== *)
(** * The regular expressions of the validator                          *)
(* ================================================================== *)

(** A backtracking matcher for the fragment of [re] the validator uses,
    always under [re.DOTALL]: literals, [.], [\s], greedy and lazy
    repetition, and one capturing group. *)

Module Regex.
Import PyStr.

Inductive re : Type :=
| REps
| RChar (c : ascii)
| RAny                        (* [.] under DOTALL, and [[\s\S]] *)
| RSpace                      (* [\s] *)
| RSeq (a b : re)
| RStar (greedy : bool) (r : re)
| RGroup (r : re).

Fixpoint lit (s : string) : re :=
  match s with
  | EmptyString => REps
  | String c r => RSeq (RChar c) (lit r)
  end.

(** [r+] *)
Definition plus (greedy : bool) (r : re) : re := RSeq r (RStar greedy r).

Fixpoint seq (rs : list re) : re :=
  match rs with
  | [] => REps
  | r :: rest => RSeq r (seq rest)
  end.

Definition span : Type := (nat * nat)%type.

Section Matcher.
Variable R : Type.

Definition cont : Type := list ascii -> nat -> option span -> option R.

(** [rmatch r l pos cap k]: match [r] at position [pos], where [l] is the
    input from [pos] on; alternatives are tried in the order of a
    backtracking engine and the first one [k] accepts wins.  An iteration
    of a repetition must consume a character, so the iterations counted
    down from the length of the input are never used up. *)
Fixpoint rmatch (r : re) (l : list ascii) (pos : nat) (cap : option span)
  (k : cont) {struct r} : option R :=
  match r with
  | REps => k l pos cap
  | RChar c =>
      match l with
      | d :: l' => if Ascii.eqb c d then k l' (S pos) cap else None
      | [] => None
      end
  | RAny =>
      match l with
      | _ :: l' => k l' (S pos) cap
      | [] => None
      end
  | RSpace =>
      match l with
      | d :: l' => if isspace d then k l' (S pos) cap else None
      | [] => None
      end
  | RSeq a b => rmatch a l pos cap (fun l' pos' cap' => rmatch b l' pos' cap' k)
  | RGroup a => rmatch a l pos cap (fun l' pos' _ => k l' pos' (Some (pos, pos')))
  | RStar greedy a =>
      (fix star (fuel : nat) (l : list ascii) (pos : nat) (cap : option span)
         {struct fuel} : option R :=
         match fuel with
         | O => k l pos cap
         | S f =>
             let again (_ : unit) :=
               rmatch a l pos cap
                 (fun l' pos' cap' =>
                    if pos' =? pos then None else star f l' pos' cap') in
             if greedy then
               match again tt with
               | Some x => Some x
               | None => k l pos cap
               end
             else
               match k l pos cap with
               | Some x => Some x
               | None => again tt
               end
         end) (S (List.length l)) l pos cap
  end.

End Matcher.

(** One match: the span of the whole match, the span of the group, and the
    input after the match. *)
Definition found : Type := (span * option span * list ascii)%type.

Definition match_at (r : re) (l : list ascii) (pos : nat) : option found :=
  rmatch found r l pos None (fun l' pos' cap => Some ((pos, pos'), cap, l')).

(** The leftmost match at or after [pos]. *)
Fixpoint search (r : re) (l : list ascii) (pos : nat) : option found :=
  match match_at r l pos with
  | Some m => Some m
  | None =>
      match l with
      | [] => None
      | _ :: l' => search r l' (S pos)
      end
  end.

(** All non-overlapping matches, left to right. *)
Fixpoint scan_all (fuel : nat) (r : re) (l : list ascii) (pos : nat)
  : list (span * option span) :=
  match fuel with
  | O => []
  | S f =>
      match search r l pos with
      | None => []
      | Some ((s, e), cap, l') =>
          ((s, e), cap) ::
          (if e =? s then
             match l' with
             | [] => []
             | _ :: l'' => scan_all f r l'' (S e)
             end
           else scan_all f r l' e)
      end
  end.

Definition spans (r : re) (s : string) : list (span * option span) :=
  scan_all (S (String.length s)) r (chars s) 0.

(** [[m.group(0) for m in re.finditer(r, s, re.DOTALL)]] *)
Definition finditer (r : re) (s : string) : list string :=
  map (fun m => slice (fst (fst m)) (snd (fst m)) s) (spans r s).

(** [re.findall(r, s, re.DOTALL)] for a pattern with one group. *)
Definition findall (r : re) (s : string) : list string :=
  map (fun m => match snd m with
                | Some (a, b) => slice a b s
                | None => EmptyString
                end) (spans r s).

End Regex.

(* ================================================================== *)
(** * evaluator.py: response validation                                 *)
(* ================================================================== *)

Module Validator.
Import PyStr Regex.

Definition newline : re := RChar (ascii_of_nat 10).

(** [r'```json\s*\n(.*?)\n```'] and the five patterns after it. *)
Definition json_block_patterns : list re :=
  [ seq [lit "```json"; RStar true RSpace; newline;
         RGroup (RStar false RAny); newline; lit "```"];
    seq [lit "```"; RStar true RSpace; newline;
         RGroup (RStar false RAny); newline; lit "```"];
    seq [lit "```json"; RStar true RSpace;
         RGroup (RStar false RAny); RStar true RSpace; lit "```"];
    seq [lit "```"; RStar true RSpace;
         RGroup (RStar false RAny); RStar true RSpace; lit "```"];
    seq [lit "```json"; RStar true RSpace;
         RGroup (RStar false RAny); lit "```"];
    seq [lit "```"; RStar true RSpace;
         RGroup (RStar false RAny); lit "```"] ].

(** [r'\[[\s\S]*?\]'], [r'\{[\s\S]*?\}'], [r'\[[\s\S]+\]'],
    [r'\{[\s\S]+\}']. *)
Definition json_patterns : list re :=
  [ seq [RChar "["; RStar false RAny; RChar "]"];
    seq [RChar "{"; RStar false RAny; RChar "}"];
    seq [RChar "["; plus true RAny; RChar "]"];
    seq [RChar "{"; plus true RAny; RChar "}"] ].

(** The first element of [cands], stripped, that parses. *)
Fixpoint first_parsing_stripped (cands : list string) : option string :=
  match cands with
  | [] => None
  | m :: rest =>
      let cleaned := strip m in
      if Json.parses cleaned then Some cleaned
      else first_parsing_stripped rest
  end.

(** The loop over the fenced-block patterns. *)
Fixpoint from_code_blocks (patterns : list re) (text : string)
  : option string :=
  match patterns with
  | [] => None
  | p :: rest =>
      match first_parsing_stripped (findall p text) with
      | Some c => Some c
      | None => from_code_blocks rest text
      end
  end.

(** How the character loop of the bracket scan ends: by returning a
    candidate that parses, or by leaving the loop with its variables. *)
Inductive loop_exit : Type :=
| Returned (json_candidate : string)
| Left (bracket_count : Z) (last_valid_end : option nat).

Section BracketScan.
Variable text_clean : string.
Variable start_char end_char : ascii.
Variable start_idx : nat.

(** [for i in range(start_idx, len(text_clean))], with [l] the characters
    from index [i] on. *)
Fixpoint bracket_loop (l : list ascii) (i : nat) (bracket_count : Z)
  (in_string escape_next : bool) : loop_exit :=
  match l with
  | [] => Left bracket_count None
  | char :: rest =>
      if escape_next then bracket_loop rest (S i) bracket_count in_string false
      else if Ascii.eqb char backslash then
        bracket_loop rest (S i) bracket_count in_string true
      else if Ascii.eqb char dquote then
        bracket_loop rest (S i) bracket_count (negb in_string) false
      else
        let too_far := (50000 <? Z.of_nat (i - start_idx))%Z in
        if in_string then
          if too_far then Left bracket_count None
          else bracket_loop rest (S i) bracket_count in_string false
        else if Ascii.eqb char start_char then
          if too_far then Left (bracket_count + 1) None
          else bracket_loop rest (S i) (bracket_count + 1) in_string false
        else if Ascii.eqb char end_char then
          let bracket_count := (bracket_count - 1)%Z in
          if (bracket_count =? 0)%Z then
            let json_candidate := slice start_idx (S i) text_clean in
            if Json.parses json_candidate then Returned json_candidate
            else Left bracket_count (Some i)
          else if too_far then Left bracket_count None
          else bracket_loop rest (S i) bracket_count in_string false
        else if too_far then Left bracket_count None
        else bracket_loop rest (S i) bracket_count in_string false
  end.

(** The body of the loop over the two bracket kinds, once [start_idx] is
    known. *)
Definition scan_from_start : option string :=
  match bracket_loop (chars (drop start_idx text_clean)) start_idx 0 false false with
  | Returned c => Some c
  | Left bracket_count last_valid_end =>
      let retry :=
        match last_valid_end with
        | Some e =>
            if start_idx <? e then
              let json_candidate := slice start_idx (S e) text_clean in
              if Json.parses json_candidate then Some json_candidate else None
            else None
        | None => None
        end in
      match retry with
      | Some c => Some c
      | None =>
          if (0 <? bracket_count)%Z then
            match rfind end_char text_clean with
            | Some end_idx =>
                if start_idx <? end_idx then
                  let json_candidate := slice start_idx (S end_idx) text_clean in
                  if Json.parses json_candidate then Some json_candidate
                  else None
                else None
            | None => None
            end
          else None
      end
  end.

End BracketScan.

Definition bracket_scan_for (text_clean : string) (start_char end_char : ascii)
  : option string :=
  match find (String start_char EmptyString) text_clean with
  | Some start_idx => scan_from_start text_clean start_char end_char start_idx
  | None => None
  end.

(** [for start_char, end_char in [('{', '}'), ('[', ']')]] *)
Definition bracket_scan (text : string) : option string :=
  let text_clean := strip text in
  match bracket_scan_for text_clean "{" "}" with
  | Some c => Some c
  | None => bracket_scan_for text_clean "[" "]"
  end.

(** The candidates of the regex fallback, in the order the loops visit
    them. *)
Definition regex_candidates (text : string) : list string :=
  flat_map (fun p => finditer p text) json_patterns.

(** The update of [best_match] by one candidate. *)
Definition better (best : option string) (json_candidate : string)
  : option string :=
  if Json.parses json_candidate then
    let best_match_len :=
      match best with Some b => String.length b | None => 0 end in
    if best_match_len <? String.length json_candidate
    then Some json_candidate else best
  else best.

Definition best_match (cands : list string) : option string :=
  fold_left better cands None.

(** The final attempt: from the first opening bracket to the last closing
    one. *)
Definition final_attempt (text : string) : option string :=
  let first_bracket := find "[" text in
  let first_brace := find "{" text in
  let as_array :=
    match first_bracket with
    | Some fb =>
        if match first_brace with None => true | Some fo => fb <? fo end then
          match rfind "]" text with
          | Some last_bracket =>
              if fb <? last_bracket then
                let candidate := slice fb (S last_bracket) text in
                if Json.parses candidate then Some candidate else None
              else None
          | None => None
          end
        else None
    | None => None
    end in
  match as_array with
  | Some c => Some c
  | None =>
      match first_brace with
      | Some fo =>
          match rfind "}" text with
          | Some last_brace =>
              if fo <? last_brace then
                let candidate := slice fo (S last_brace) text in
                if Json.parses candidate then Some candidate else None
              else None
          | None => None
          end
      | None => None
      end
  end.

Definition first_some {A : Type} (a : option A) (b : unit -> option A)
  : option A :=
  match a with Some _ => a | None => b tt end.

Definition _validate_json_with_cleaning (text : string)
  : bool * option string :=
  if String.eqb text EmptyString || String.eqb (strip text) EmptyString
  then (false, None)
  else if Json.parses (strip text) then (true, Some (strip text))
  else
    match
      first_some (from_code_blocks json_block_patterns text) (fun _ =>
      first_some (bracket_scan text) (fun _ =>
      first_some (best_match (regex_candidates text)) (fun _ =>
      final_attempt text)))
    with
    | Some c => (true, Some c)
    | None => (false, None)
    end.

End Validator.

(* ================================================================== *)
(** * evaluator.py: invocation with identifier-variant fallback         *)
(* ================================================================== *)

Module Invocation.
Import PyStr PyNum Py.

(** ** The world around the evaluator *)

(** One item of [output.message.content] in a Converse response. *)
Inductive content_item : Type :=
| CText (text : string)      (* a dict with a "text" key *)
| CStr (s : string)          (* a plain str *)
| COther.                    (* anything else *)

(** A Converse response; an absent usage count reads as 0. *)
Record converse_response : Type := {
  content : list content_item;
  inputTokens : Z;
  outputTokens : Z
}.

Record inference_config : Type := {
  maxTokens : pyval;
  temperature : pyval;
  topP : pyval
}.

(** What an invocation returns: response text, output tokens, input
    tokens. *)
Definition invocation : Type := (string * Z * Z)%type.

(** The evaluator object and what it reaches: its region, the Bedrock
    client, the optional tokenizer module, the clock and the id source.
    The client answers each request it is sent; [invoke_body] stands for
    the request building, the [invoke_model] call and the response parsing
    inside the [try] of [_try_invoke_model_direct]. *)
Record env : Type := {
  region_name : string;
  tiktoken : Tokenizers.tiktoken_module;
  converse : string -> string -> inference_config -> result converse_response;
  invoke_body : string -> string -> string -> pyval -> pyval -> result invocation;
  utcnow_isoformat : string;
  uuid4_prefix : string;
  elapsed_ms : Z
}.

(** ** Identifier variants *)

(** [list(dict.fromkeys(l))]: first occurrences, in order. *)
Fixpoint dedup_seen (seen l : list string) : list string :=
  match l with
  | [] => []
  | x :: r =>
      if existsb (String.eqb x) seen then dedup_seen seen r
      else x :: dedup_seen (x :: seen) r
  end.

Definition dedup (l : list string) : list string := dedup_seen [] l.

(** [model_id.rsplit(":", 1)[0] if ":" in model_id else model_id] *)
Definition without_suffix (model_id : string) : string :=
  match rfind ":" model_id with
  | Some i => take i model_id
  | None => model_id
  end.

Definition is_profile_id (use_inference_profile : bool) (model_id : string)
  : bool :=
  use_inference_profile || contains "us." model_id
  || contains "global." model_id.

(** The list built at the head of [_invoke_converse]. *)
Definition converse_variants (region : string) (model_id : string)
  (use_inference_profile : bool) : list string :=
  let model_id_without_suffix := without_suffix model_id in
  dedup
    (if is_profile_id use_inference_profile model_id then [model_id]
     else
       (if String.eqb region "us-east-2"
        then ["us." ++ model_id; "us." ++ model_id_without_suffix ++ ":0"]
        else [])
       ++ [model_id; model_id_without_suffix]).

(** The list built at the head of [_invoke_model_direct]. *)
Definition direct_variants (region : string) (provider model_id : string)
  (use_inference_profile : bool) : list string :=
  let model_id_without_suffix := without_suffix model_id in
  dedup
    (if is_profile_id use_inference_profile model_id then [model_id]
     else
       (if String.eqb region "us-east-2"
        then ["us." ++ model_id; "us." ++ model_id_without_suffix ++ ":0"]
        else [])
       ++ [model_id]
       ++ (if String.eqb provider "meta" || contains "llama" (lower model_id)
           then
             (if String.eqb model_id_without_suffix model_id then []
              else [model_id_without_suffix])
             ++ (if contains ":" model_id then [] else [model_id ++ ":0"])
           else [])).

(** ** Messages *)

Definition nl : string := String (ascii_of_nat 10) EmptyString.

(** The four characters that open the heading line of the remediation
    text, as the bytes of the source file. *)
Definition heading_glyph : string :=
  of_chars (map ascii_of_nat [195; 176; 197; 184; 226; 128; 157; 194; 167]).

Definition access_remediation (tried region : string) : string :=
  "Bedrock API error (ResourceNotFoundException): Model use case details have not been submitted for this account. "
  ++ "Fill out the Anthropic use case details form before using the model. "
  ++ "If you have already filled out the form, try again in 15 minutes. "
  ++ "(tried model ID: " ++ tried ++ ")" ++ nl ++ nl
  ++ heading_glyph ++ " TO FIX THIS ERROR:" ++ nl
  ++ "1. Go to AWS Bedrock Model Access: https://console.aws.amazon.com/bedrock/home?region="
  ++ region ++ "#/modelaccess" ++ nl
  ++ "2. Find 'Anthropic' in the provider list" ++ nl
  ++ "3. Click 'Request model access' or 'Enable'" ++ nl
  ++ "4. Fill out the use case form and submit" ++ nl
  ++ "5. Wait 5-15 minutes for approval" ++ nl
  ++ "6. Try again after approval" ++ nl ++ nl
  ++ "See MANUAL_GUIDE.md section 'Issue 3.5' or FIX_ANTHROPIC_ACCESS.md for detailed instructions.".

Definition Exception (text : string) : exn := PyError "Exception" text.

Definition opt_default (d : string) (o : option string) : string :=
  match o with Some s => s | None => d end.

(** [f"{last_error}"] *)
Definition show_last_error (last_error : option string) : string :=
  opt_default "None" last_error.

Definition mentions_profile (msg : string) : bool :=
  contains "inference profile" (lower msg)
  || contains "on-demand throughput" (lower msg).

(** The variant queue after an error that mentions inference profiles. *)
Definition with_profile_variant (variants : list string) (variant_id : string)
  : list string :=
  if negb (startswith "us." variant_id)
     && negb (startswith "global." variant_id)
  then
    let inference_profile_id := "us." ++ variant_id in
    if existsb (String.eqb inference_profile_id) variants then variants
    else variants ++ [inference_profile_id]
  else variants.

Definition is_access_error (error_code error_msg : string) : bool :=
  String.eqb error_code "ResourceNotFoundException"
  && contains "use case details" (lower error_msg).

(** ** The loop over the variants *)

(** What an [except] clause of the loop does. *)
Inductive decision : Type :=
| Abort (e : exn)                          (* raise out of the function *)
| Next (variants : list string) (last_error : string).   (* next variant *)

(** The two [except] clauses.  [_invoke_converse] and
    [_invoke_model_direct] have the same clauses, except that only the
    former tests for the access error ([access_check]). *)
Definition on_error (access_check : bool) (region : string)
  (variants : list string) (variant_id : string) (e : exn) : decision :=
  match e with
  | ClientError code message text =>
      let error_code := opt_default "Unknown" code in
      let error_msg := opt_default text message in
      if access_check && is_access_error error_code error_msg then
        Abort (Exception (access_remediation variant_id region))
      else
        let last_error :=
          "Bedrock API error (" ++ error_code ++ "): " ++ error_msg
          ++ " (tried model ID: " ++ variant_id ++ ")" in
        if mentions_profile error_msg then
          Next (with_profile_variant variants variant_id) last_error
        else if negb (String.eqb error_code "ValidationException") then
          Abort (Exception last_error)
        else Next variants last_error
  | PyError _ error_str =>
      let last_error :=
        "Failed to invoke model with ID '" ++ variant_id ++ "': " ++ error_str in
      if mentions_profile error_str then
        Next (with_profile_variant variants variant_id) last_error
      else if negb (contains "ValidationException" error_str) then
        Abort (Exception last_error)
      else Next variants last_error
  | BaseError _ _ => Abort e
  end.

Fixpoint join_quoted (ids : list string) : string :=
  match ids with
  | [] => EmptyString
  | [x] => "'" ++ x ++ "'"
  | x :: r => "'" ++ x ++ "', " ++ join_quoted r
  end.

Definition all_failed (last_error : option string) (variants : list string)
  : exn :=
  Exception (show_last_error last_error ++ " All attempted model IDs: "
             ++ join_quoted variants).

Section Loop.
Variable access_check : bool.
Variable region : string.
Variable attempt : string -> result invocation.

(** [for variant_id in model_id_variants], the list being read by index
    while it may grow.  [trace] lists the identifiers sent so far.  The
    result is [None] when [fuel] iterations did not finish the loop. *)
Fixpoint variant_loop (fuel : nat) (variants : list string) (i : nat)
  (last_error : option string) (trace : list string)
  : option (result invocation * list string) :=
  match fuel with
  | O => None
  | S f =>
      match nth_error variants i with
      | None => Some (Raise (all_failed last_error variants), trace)
      | Some variant_id =>
          let trace := (trace ++ [variant_id])%list in
          match attempt variant_id with
          | Ok r => Some (Ok r, trace)
          | Raise e =>
              match on_error access_check region variants variant_id e with
              | Abort e' => Some (Raise e', trace)
              | Next variants' last_error' =>
                  variant_loop f variants' (S i) (Some last_error') trace
              end
          end
      end
  end.

(** Iterations that always finish the loop: each variant is visited once
    and adds at most one new one. *)
Definition enough (variants : list string) : nat :=
  S (2 * List.length variants).

Definition run_variants (variants : list string)
  : result invocation * list string :=
  match variant_loop (enough variants) variants 0 None [] with
  | Some r => r
  | None => (Raise (BaseError "RuntimeError" "loop did not finish"), [])
  end.

End Loop.

End Invocation.

(* ================================================================== *)
(** * evaluator.py: [BedrockEvaluator]                                  *)
(* ================================================================== *)

Module Evaluator.
Import PyStr PyNum Py Invocation.

(** [count_tokens(v, text)] for an arbitrary first argument: the function
    starts with [v.lower()]. *)
Definition py_count_tokens (e : env) (v : pyval) (text : string) : result Z :=
  match v with
  | VStr s => Ok (Tokenizers.count_tokens (tiktoken e) s text)
  | other => Raise (no_attribute other "lower")
  end.

Section Self.
Variable self : env.

Fixpoint response_text_of (items : list content_item) : string :=
  match items with
  | [] => EmptyString
  | CText t :: r => t ++ response_text_of r
  | CStr s :: r => s ++ response_text_of r
  | COther :: r => response_text_of r
  end.

(** The [try] body of one iteration of [_invoke_converse]. *)
Definition converse_attempt (prompt : string) (cfg : inference_config)
  (tokenizer_type : pyval) (variant_id : string) : result invocation :=
  response <- converse self variant_id prompt cfg ;;
  let response_text := response_text_of (content response) in
  let input_tokens_api := inputTokens response in
  output_tokens <-
    (if (outputTokens response =? 0)%Z
     then py_count_tokens self tokenizer_type response_text
     else Ok (outputTokens response)) ;;
  Ok (response_text, output_tokens, input_tokens_api).

Definition _invoke_converse (prompt model_id : string) (gen_params : pyval)
  (tokenizer_type : pyval) (use_inference_profile : bool)
  : result invocation * list string :=
  let model_id_variants :=
    converse_variants (region_name self) model_id use_inference_profile in
  let body :=
    mt <- py_get gen_params "max_tokens" (VInt 512) ;;
    te <- py_get gen_params "temperature" (VFloat (FFin 0.2)) ;;
    tp <- py_get gen_params "top_p" (VFloat (FFin 0.95)) ;;
    Ok {| maxTokens := mt; temperature := te; topP := tp |} in
  match body with
  | Raise e => (Raise e, [])
  | Ok cfg =>
      run_variants true (region_name self)
        (converse_attempt prompt cfg tokenizer_type) model_id_variants
  end.

(** [_try_invoke_model_direct]: whatever its body raises leaves it as a
    plain [Exception]. *)
Definition _try_invoke_model_direct (prompt model_id provider : string)
  (gen_params : pyval) (tokenizer_type : pyval) : result invocation :=
  match invoke_body self prompt model_id provider gen_params tokenizer_type with
  | Ok r => Ok r
  | Raise (ClientError code message text) =>
      Raise (Exception ("Bedrock API error (" ++ opt_default "Unknown" code
                        ++ "): " ++ opt_default text message))
  | Raise (PyError _ text) =>
      Raise (Exception ("Failed to invoke model: " ++ text))
  | Raise (BaseError c t) => Raise (BaseError c t)
  end.

Definition _invoke_model_direct (prompt model_id provider : string)
  (gen_params : pyval) (tokenizer_type : pyval)
  (use_inference_profile : bool) : result invocation * list string :=
  let model_id_variants :=
    direct_variants (region_name self) provider model_id
      use_inference_profile in
  run_variants false (region_name self)
    (fun variant_id =>
       _try_invoke_model_direct prompt variant_id provider gen_params
         tokenizer_type)
    model_id_variants.

(** What the string operations of [_invoke_model] and of the variant
    builders raise on a model id that is not a str. *)
Definition bad_model_id (provider : string) (model_id : pyval) : exn :=
  if String.eqb provider "anthropic" then
    match model_id with
    | VList l =>
        if existsb (fun v => match v with
                             | VStr s => String.eqb s ":"
                             | _ => false
                             end) l
        then no_attribute model_id "rsplit"
        else PyError "TypeError" "unhashable type: 'list'"
    | VDict d =>
        if existsb (fun kv => String.eqb (fst kv) ":") d
        then no_attribute model_id "rsplit"
        else PyError "TypeError" "unhashable type: 'dict'"
    | other =>
        PyError "TypeError"
          ("argument of type '" ++ type_name other ++ "' is not iterable")
    end
  else no_attribute model_id "lower".

Definition _invoke_model (prompt : string) (model : pydict) (provider : string)
  (gen_params : pyval) : result invocation * list string :=
  let model_id := dict_get model "bedrock_model_id" VNone in
  let tokenizer_type := dict_get model "tokenizer" (VStr "heuristic") in
  let use_inference_profile :=
    truthy (dict_get model "use_inference_profile" (VBool false)) in
  match model_id with
  | VStr id =>
      if String.eqb provider "anthropic" || contains "claude" (lower id)
         || contains "nova" (lower id)
      then _invoke_converse prompt id gen_params tokenizer_type
             use_inference_profile
      else _invoke_model_direct prompt id provider gen_params tokenizer_type
             use_inference_profile
  | other => (Raise (bad_model_id provider other), [])
  end.

(** ** The metric record *)

Record metrics : Type := {
  timestamp : string;
  run_id : string;
  model_name : pyval;
  model_id : pyval;
  prompt_id : option Z;
  input_prompt : string;
  input_tokens : Z;
  output_tokens : Z;
  latency_ms : Z;
  json_valid : option bool;
  error : option string;
  status : string;
  cost_usd_input : pyfloat;
  cost_usd_output : pyfloat;
  cost_usd_total : pyfloat;
  response : option string;
  cleaned_response : option string;
  original_response : option string
}.

(** ** Second validation pass: stripping prose around the payload *)

Definition prefixes_to_remove : list string :=
  ["Here's the JSON:"; "Here is the JSON:"; "The JSON response is:"; "JSON:";
   "```json"; "```"].

Definition suffixes_to_remove : list string :=
  ["```"; "Hope this helps!"; "Let me know if you need anything else."].

Definition remove_prefix (cleaned_response prefix : string) : string :=
  if startswith (lower prefix) (lower cleaned_response) then
    let c := strip (drop (String.length prefix) cleaned_response) in
    if startswith ":" c then strip (drop 1 c) else c
  else cleaned_response.

Definition remove_suffix (cleaned_response suffix : string) : string :=
  if endswith (lower suffix) (lower cleaned_response) then
    strip (take (String.length cleaned_response - String.length suffix)
                cleaned_response)
  else cleaned_response.

Definition aggressive_clean (response_text : string) : string :=
  fold_left remove_suffix suffixes_to_remove
    (fold_left remove_prefix prefixes_to_remove (strip response_text)).

(** The validation block: the new values of [json_valid],
    [cleaned_response] and [original_response]. *)
Definition validation (response_text : string) (output_tokens_actual : Z)
  (expected_json : bool) : option bool * option string * option string :=
  if String.eqb response_text EmptyString
     || String.eqb (strip response_text) EmptyString
     || (output_tokens_actual =? 0)%Z
  then (if expected_json then Some false else None, None, None)
  else
    let first := Validator._validate_json_with_cleaning response_text in
    let '(is_valid, cleaned_json) :=
      if negb (fst first) && expected_json then
        let cleaned_response := aggressive_clean response_text in
        if negb (String.eqb cleaned_response response_text)
        then Validator._validate_json_with_cleaning cleaned_response
        else first
      else first in
    let cleaned :=
      match cleaned_json with
      | Some c =>
          if is_valid && negb (String.eqb c EmptyString) then Some c else None
      | None => None
      end in
    if expected_json then
      (Some is_valid, cleaned,
       match cleaned with
       | Some _ => None
       | None => if is_valid then None else Some (take 500 response_text)
       end)
    else (Some is_valid, cleaned, None).

(** ** [evaluate_prompt] *)

(** The [except Exception] clause, entered with the record as the [try]
    body left it and with the current value of the local [input_tokens]. *)
Definition on_exception (m : metrics) (input_tokens_local : Z) (e : exn)
  : result metrics :=
  match e with
  | BaseError _ _ => Raise e
  | _ =>
      let error_str := exn_str e in
      let shown :=
        if contains "use case details" (lower error_str)
           && contains "ResourceNotFoundException" error_str
           && negb (contains "TO FIX THIS ERROR" error_str)
        then
          access_remediation (py_format (model_id m)) (region_name self)
        else error_str in
      Ok {| timestamp := timestamp m; run_id := run_id m;
            model_name := model_name m; model_id := model_id m;
            prompt_id := prompt_id m; input_prompt := input_prompt m;
            input_tokens :=
              if (input_tokens m =? 0)%Z then input_tokens_local
              else input_tokens m;
            output_tokens := output_tokens m;
            latency_ms := elapsed_ms self;
            json_valid := json_valid m;
            error := Some shown;
            status := "error";
            cost_usd_input := cost_usd_input m;
            cost_usd_output := cost_usd_output m;
            cost_usd_total := cost_usd_total m;
            response := response m;
            cleaned_response := cleaned_response m;
            original_response := original_response m |}
  end.

Definition evaluate_prompt (prompt : string) (model : pydict)
  (prompt_id : option Z) (expected_json : bool) (run_id : option string)
  : result metrics :=
  let run_id := match run_id with
                | Some r => r
                | None => uuid4_prefix self
                end in
  let model_name := dict_get model "name" (VStr "unknown") in
  let model_id := dict_get model "bedrock_model_id" (VStr "unknown") in
  provider <- py_lower (dict_get model "provider" (VStr EmptyString)) ;;
  let tokenizer_type := dict_get model "tokenizer" (VStr "heuristic") in
  input_tokens <- py_count_tokens self tokenizer_type prompt ;;
  let gen_params := ModelRegistry.get_generation_params model in
  let m0 :=
    {| timestamp := utcnow_isoformat self ++ "Z"; run_id := run_id;
       model_name := model_name; model_id := model_id;
       prompt_id := prompt_id; input_prompt := prompt;
       input_tokens := input_tokens; output_tokens := 0; latency_ms := 0;
       json_valid := Some false; error := None; status := "success";
       cost_usd_input := FFin 0; cost_usd_output := FFin 0;
       cost_usd_total := FFin 0;
       response := None; cleaned_response := None;
       original_response := None |} in
  match fst (_invoke_model prompt model provider gen_params) with
  | Raise e => on_exception m0 input_tokens e
  | Ok (response_text, output_tokens_actual, input_tokens_actual) =>
      let input_tokens :=
        if (0 <? input_tokens_actual)%Z then input_tokens_actual
        else input_tokens in
      let '(valid, cleaned, original) :=
        validation response_text output_tokens_actual expected_json in
      let m1 :=
        {| timestamp := timestamp m0; run_id := run_id;
           model_name := model_name; model_id := model_id;
           prompt_id := prompt_id; input_prompt := prompt;
           input_tokens := input_tokens;
           output_tokens := output_tokens_actual;
           latency_ms := elapsed_ms self;
           json_valid := valid; error := None; status := "success";
           cost_usd_input := FFin 0; cost_usd_output := FFin 0;
           cost_usd_total := FFin 0;
           response := Some response_text; cleaned_response := cleaned;
           original_response := original |} in
      match ModelRegistry.get_model_pricing model with
      | Raise e => on_exception m1 input_tokens e
      | Ok pricing =>
          let input_cost :=
            fmul (per_thousand input_tokens)
                 (ModelRegistry.input_per_1k_tokens_usd pricing) in
          let output_cost :=
            fmul (per_thousand output_tokens_actual)
                 (ModelRegistry.output_per_1k_tokens_usd pricing) in
          Ok {| timestamp := timestamp m1; run_id := run_id;
                model_name := model_name; model_id := model_id;
                prompt_id := prompt_id; input_prompt := prompt;
                input_tokens := input_tokens;
                output_tokens := output_tokens_actual;
                latency_ms := elapsed_ms self;
                json_valid := valid; error := None; status := "success";
                cost_usd_input := round6 input_cost;
                cost_usd_output := round6 output_cost;
                cost_usd_total := round6 (fadd input_cost output_cost);
                response := Some response_text; cleaned_response := cleaned;
                original_response := original |}
      end
  end.

(** ** [evaluate_prompts_batch] *)

(** A row of the prompt frame whose prompt is a str: its [prompt_id]
    ([None] when absent), its [prompt] (the empty str when absent) and the
    truth value of its [expected_json] ([False] when absent). *)
Record prompt_row : Type := {
  row_prompt_id : option Z;
  row_prompt : string;
  row_expected_json : bool
}.

(** The inner loop over the models, for one row. *)
Fixpoint evaluate_row (row : prompt_row) (models : list pydict)
  (run_id : string) : result (list metrics) :=
  match models with
  | [] => Ok []
  | model :: rest =>
      m <- evaluate_prompt (row_prompt row) model (row_prompt_id row)
             (row_expected_json row) (Some run_id) ;;
      ms <- evaluate_row row rest run_id ;;
      Ok (m :: ms)
  end.

(** The outer loop over the rows. *)
Fixpoint evaluate_rows (rows : list prompt_row) (models : list pydict)
  (run_id : string) : result (list metrics) :=
  match rows with
  | [] => Ok []
  | row :: rest =>
      if String.eqb (row_prompt row) EmptyString
      then evaluate_rows rest models run_id
      else
        here <- evaluate_row row models run_id ;;
        after <- evaluate_rows rest models run_id ;;
        Ok (here ++ after)%list
  end.

Definition evaluate_prompts_batch (prompts_df : list prompt_row)
  (models : list pydict) (run_id : option string) : result (list metrics) :=
  let run_id := match run_id with
                | Some r => r
                | None => uuid4_prefix self
                end in
  evaluate_rows prompts_df models run_id.

End Self.

End Evaluator.

(* ================================================================== *)
(** * report_generator.py                                               *)
(* ================================================================== *)

(** A data frame is the list of its rows, read after the numeric
    conversions at the head of [generate_report]; its statistics are
    computed on exact rationals.  The key of a group is the model name. *)

Module Report.
Import PyNum.
Open Scope Q_scope.

Record row : Type := {
  r_model_name : string;
  r_status : string;
  r_input_tokens : Q;
  r_output_tokens : Q;
  r_latency_ms : Q;
  r_json_valid : bool;
  r_cost_usd_total : Q
}.

Definition frame : Type := list row.

(** ** Series statistics *)

Definition total (xs : list Q) : Q := fold_left Qplus xs 0.

Definition mean (xs : list Q) : Q := total xs / NQ (List.length xs).

Definition Qleb (a b : Q) : bool :=
  match Qcompare a b with Gt => false | _ => true end.

Fixpoint insert_sorted (x : Q) (l : list Q) : list Q :=
  match l with
  | [] => [x]
  | y :: r => if Qleb x y then x :: l else y :: insert_sorted x r
  end.

Definition sort_values (xs : list Q) : list Q :=
  fold_right insert_sorted [] xs.

Definition smallest (xs : list Q) : Q := nth 0 (sort_values xs) 0.
Definition largest (xs : list Q) : Q :=
  nth (List.length xs - 1) (sort_values xs) 0.

(** [series.quantile(p)]: linear interpolation between the two nearest
    ranks of the sorted sample. *)
Definition quantile (xs : list Q) (p : Q) : Q :=
  let sorted := sort_values xs in
  let h := NQ (List.length xs - 1) * p in
  let lo := Z.to_nat (Qfloor h) in
  let a := nth lo sorted 0 in
  let b := nth (S lo) sorted a in
  a + (h - inject_Z (Qfloor h)) * (b - a).

Definition percentile (series : list Q) (p : Q) : Q :=
  match series with
  | [] => 0
  | _ => quantile series p
  end.

(** [round(x, d)] *)
Definition round_to (d : nat) (x : Q) : Q :=
  let scale := inject_Z (10 ^ Z.of_nat d) in
  Qred (inject_Z (round_half_even (x * scale)) / scale).

(** ** The report *)

Record summary : Type := {
  s_model_name : string;
  s_count : nat;
  s_success_count : nat;
  s_error_count : nat;
  s_avg_input_tokens : Q;
  s_avg_output_tokens : Q;
  s_p50_latency_ms : Q;
  s_p95_latency_ms : Q;
  s_p99_latency_ms : Q;
  s_min_latency_ms : Q;
  s_max_latency_ms : Q;
  s_json_valid_pct : Q;
  s_avg_cost_usd_per_request : Q;
  s_total_cost_usd : Q
}.

Definition is_success (r : row) : bool := String.eqb (r_status r) "success".
Definition is_error (r : row) : bool := String.eqb (r_status r) "error".
Definition of_model (name : string) (r : row) : bool :=
  String.eqb (r_model_name r) name.

Fixpoint insert_name (x : string) (l : list string) : list string :=
  match l with
  | [] => [x]
  | y :: r =>
      match String_as_OT.compare x y with
      | Lt => x :: l
      | Eq => l
      | Gt => y :: insert_name x r
      end
  end.

(** The keys of [groupby]: the distinct model names, ascending. *)
Definition group_keys (df : frame) : list string :=
  fold_right insert_name [] (map r_model_name df).

(** The dictionary appended to [agg_data] for one group. *)
Definition summarise (df : frame) (model_name : string) (group : frame)
  : summary :=
  let json_valid_count := List.length (filter r_json_valid group) in
  let total_count := List.length group in
  let latency := map r_latency_ms group in
  {| s_model_name := model_name;
     s_count := total_count;
     s_success_count := total_count;
     s_error_count :=
       List.length (filter (fun r => of_model model_name r && is_error r) df);
     s_avg_input_tokens := round_to 1 (mean (map r_input_tokens group));
     s_avg_output_tokens := round_to 1 (mean (map r_output_tokens group));
     s_p50_latency_ms := round_to 1 (percentile latency 0.50);
     s_p95_latency_ms := round_to 1 (percentile latency 0.95);
     s_p99_latency_ms := round_to 1 (percentile latency 0.99);
     s_min_latency_ms := round_to 1 (smallest latency);
     s_max_latency_ms := round_to 1 (largest latency);
     s_json_valid_pct :=
       round_to 2 (match total_count with
                   | O => 0
                   | _ => NQ json_valid_count / NQ total_count * 100
                   end);
     s_avg_cost_usd_per_request :=
       round_to 6 (mean (map r_cost_usd_total group));
     s_total_cost_usd := round_to 6 (total (map r_cost_usd_total group)) |}.

(** [generate_report(raw_metrics_df=df)]: the rows of the returned frame. *)
Definition generate_report (df : frame) : list summary :=
  match df with
  | [] => []
  | _ =>
      let success_df := filter is_success df in
      flat_map (fun model_name =>
                  match filter (of_model model_name) success_df with
                  | [] => []
                  | group => [summarise df model_name group]
                  end)
               (group_keys success_df)
  end.

End Report.

(* ================================================================== *)
(** * Properties                                                        *)
(* ================================================================== *)

Import PyStr PyNum Py.

(** ** Vocabulary of the statements *)


(** A tokenizer module whose encoders map the empty text to no token. *)
Definition encodes_empty_to_nothing (tk : Tokenizers.tiktoken_module) : Prop :=
  forall backend enc n,
    tk = Some backend -> backend enc EmptyString = Some n -> n = 0.

(** The running best match of the regex fallback is a candidate that
    parses. *)
Definition parsed_or_none (acc : option string) : Prop :=
  match acc with
  | Some a => Json.parses a = true
  | None => True
  end.

(** A variant whose failure may add a profile variant to the queue. *)
Definition can_append (v : string) : bool :=
  negb (startswith "us." v) && negb (startswith "global." v).

(** Iterations the variant loop still needs at index [i]: the variants left
    and one more for each of them that may add a variant. *)
Definition iterations_left (variants : list string) (i : nat) : nat :=
  (List.length variants - i)
  + List.length (filter can_append (skipn i variants)).

(** A call that ends with the access error of [_invoke_converse]: a
    ResourceNotFoundException whose message mentions the use case
    details. *)
Definition access_denied {A : Type} (r : result A) : Prop :=
  exists code message text,
    r = Raise (ClientError code message text)
    /\ Invocation.is_access_error
         (Invocation.opt_default "Unknown" code)
         (Invocation.opt_default text message) = true.

(** An exception that [except Exception] catches. *)
Definition catchable (e : exn) : Prop :=
  match e with
  | BaseError _ _ => False
  | _ => True
  end.

Definition never_base {A : Type} (r : result A) : Prop :=
  match r with
  | Raise e => catchable e
  | Ok _ => True
  end.

(** ** Example worlds *)

Definition example_env (region : string)
  (client : string -> string -> Invocation.inference_config ->
            result Invocation.converse_response)
  (body : string -> string -> string -> pyval -> pyval ->
          result Invocation.invocation) : Invocation.env :=
  {| Invocation.region_name := region;
     Invocation.tiktoken := None;
     Invocation.converse := client;
     Invocation.invoke_body := body;
     Invocation.utcnow_isoformat := "2024-05-01T12:00:00";
     Invocation.uuid4_prefix := "0a1b2c3d";
     Invocation.elapsed_ms := 120 |}.

(** A client whose account has no access to the provider. *)
Definition denying_client (modelId prompt : string)
  (cfg : Invocation.inference_config) : result Invocation.converse_response :=
  Raise (ClientError (Some "ResourceNotFoundException")
           (Some "Model use case details have not been submitted for this account.")
           "An error occurred (ResourceNotFoundException) when calling the Converse operation").

(** A client that answers every request with the same JSON object and
    reports the given input and output token counts. *)
Definition answering_client (input output : Z) (modelId prompt : string)
  (cfg : Invocation.inference_config) : result Invocation.converse_response :=
  Ok {| Invocation.content := [Invocation.CText "{}"];
        Invocation.inputTokens := input;
        Invocation.outputTokens := output |}.

(** ** Vocabulary of [evaluate_prompt] *)

(** The provider and the tokenizer of the model, when given, are strs. *)
Definition names_are_strings (model : pydict) : Prop :=
  (exists p, dict_get model "provider" (VStr EmptyString) = VStr p)
  /\ (exists t, dict_get model "tokenizer" (VStr "heuristic") = VStr t).

(** The client raises nothing but subclasses of [Exception]. *)
Definition client_raises_exceptions_only (self : Invocation.env) : Prop :=
  (forall v p cfg, never_base (Invocation.converse self v p cfg))
  /\ (forall p v pr g t, never_base (Invocation.invoke_body self p v pr g t)).


Definition provider_of (model : pydict) : string :=
  match dict_get model "provider" (VStr EmptyString) with
  | VStr p => lower p
  | _ => EmptyString
  end.

(** The step-1 estimate of the input tokens. *)
Definition estimated_input_tokens (self : Invocation.env) (model : pydict)
  (prompt : string) : Z :=
  match dict_get model "tokenizer" (VStr "heuristic") with
  | VStr t => Tokenizers.count_tokens (Invocation.tiktoken self) t prompt
  | _ => 0%Z
  end.







Definition unused_body (prompt modelId provider : string)
  (gen_params tokenizer_type : pyval) : result Invocation.invocation :=
  Raise (PyError "Exception" "not reached").

(** ** Vocabulary of the model registry *)

(** The name of a catalog entry is [name]. *)
Definition named (name : string) (model : pyval) : Prop :=
  py_get model "name" VNone = Ok (VStr name).

(** A catalog entry that can be asked for its name and answers another
    one. *)
Definition named_otherwise (name : string) (model : pyval) : Prop :=
  exists n, py_get model "name" VNone = Ok n /\ n <> VStr name.

Definition is_dict (v : pyval) : Prop :=
  match v with VDict _ => True | _ => False end.

Definition example_claude : pyval :=
  VDict [("name", VStr "claude");
         ("bedrock_model_id", VStr "anthropic.claude-3");
         ("provider", VStr "anthropic")].

Definition example_llama : pyval :=
  VDict [("name", VStr "llama"); ("bedrock_model_id", VStr "meta.llama3");
         ("provider", VStr "meta")].

Definition example_config : pydict :=
  [("region_name", VStr "us-east-1");
   ("models", VList [example_claude; example_llama])].

(** ** Vocabulary of the invocation *)

(** The inference configuration [_invoke_converse] sends. *)
Definition inference_config_of (gen_params : pyval)
  : result Invocation.inference_config :=
  mt <- py_get gen_params "max_tokens" (VInt 512) ;;
  te <- py_get gen_params "temperature" (VFloat (FFin 0.2)) ;;
  tp <- py_get gen_params "top_p" (VFloat (FFin 0.95)) ;;
  Ok {| Invocation.maxTokens := mt; Invocation.temperature := te;
        Invocation.topP := tp |}.

(** The text of a service error in the loop of [_invoke_converse]. *)
Definition service_error_text (code message v : string) : string :=
  "Bedrock API error (" ++ code ++ "): " ++ message
  ++ " (tried model ID: " ++ v ++ ")".

(** The text of a service error as [_try_invoke_model_direct] raises it. *)
Definition wrapped_service_error (code message : string) : string :=
  "Bedrock API error (" ++ code ++ "): " ++ message.

(** The text the loop of [_invoke_model_direct] makes of it. *)
Definition direct_error_text (v code message : string) : string :=
  "Failed to invoke model with ID '" ++ v ++ "': "
  ++ wrapped_service_error code message.

(** The last error recorded after the variants [todo] have failed with the
    texts [message_of], starting from [last_error]. *)
Definition last_error_after (message_of : string -> string)
  (last_error : option string) (todo : list string) : option string :=
  match rev todo with
  | [] => last_error
  | v :: _ => Some (message_of v)
  end.

(** A client that rejects every identifier as invalid. *)
Definition rejecting_client (modelId prompt : string)
  (cfg : Invocation.inference_config) : result Invocation.converse_response :=
  Raise (ClientError (Some "ValidationException")
           (Some "The provided model identifier is invalid.")
           "An error occurred (ValidationException) when calling the Converse operation").

(** A client that answers one identifier and rejects the others. *)
Definition picky_client (accepted : string) (modelId prompt : string)
  (cfg : Invocation.inference_config) : result Invocation.converse_response :=
  if String.eqb modelId accepted then answering_client 12 7 modelId prompt cfg
  else rejecting_client modelId prompt cfg.

(** A client of an account whose request rate is exceeded. *)
Definition throttling_client (modelId prompt : string)
  (cfg : Invocation.inference_config) : result Invocation.converse_response :=
  Raise (ClientError (Some "ThrottlingException")
           (Some "Too many requests, please wait before trying again.")
           "An error occurred (ThrottlingException) when calling the Converse operation").

(** A client of a model that is served through inference profiles only. *)
Definition profile_only_client (modelId prompt : string)
  (cfg : Invocation.inference_config) : result Invocation.converse_response :=
  if can_append modelId then
    Raise (ClientError (Some "ValidationException")
             (Some "Invocation of this model ID with on-demand throughput isn't supported. Retry your request with the ID or ARN of an inference profile that contains this model.")
             "An error occurred (ValidationException) when calling the Converse operation")
  else answering_client 12 7 modelId prompt cfg.

(** The direct protocol of an account without access to the model. *)
Definition refusing_body (prompt modelId provider : string)
  (gen_params tokenizer_type : pyval) : result Invocation.invocation :=
  Raise (ClientError (Some "AccessDeniedException")
           (Some "You don't have access to the model with the specified model ID.")
           "An error occurred (AccessDeniedException) when calling the InvokeModel operation").

(** The direct protocol of a service that rejects every identifier. *)
Definition rejecting_body (prompt modelId provider : string)
  (gen_params tokenizer_type : pyval) : result Invocation.invocation :=
  Raise (ClientError (Some "ValidationException")
           (Some "The provided model identifier is invalid.")
           "An error occurred (ValidationException) when calling the InvokeModel operation").

(** ** Vocabulary of the records *)

(** The fields the validation block writes. *)
Definition validation_fields (m : Evaluator.metrics)
  : option bool * option string * option string :=
  (Evaluator.json_valid m, Evaluator.cleaned_response m,
   Evaluator.original_response m).

(** What identifies a record of a batch: its prompt, its prompt id, the
    name of its model and the run. *)
Definition record_key (m : Evaluator.metrics)
  : string * option Z * pyval * string :=
  (Evaluator.input_prompt m, Evaluator.prompt_id m, Evaluator.model_name m,
   Evaluator.run_id m).

(** The keys of the records a batch is to produce: for each row with a
    prompt, in order, one for each model, in order. *)
Definition expected_keys (prompts_df : list Evaluator.prompt_row)
  (models : list pydict) (run_id : string)
  : list (string * option Z * pyval * string) :=
  flat_map
    (fun row =>
       map (fun model =>
              (Evaluator.row_prompt row, Evaluator.row_prompt_id row,
               dict_get model "name" (VStr "unknown"), run_id))
           models)
    (filter (fun row => negb (String.eqb (Evaluator.row_prompt row)
                                        EmptyString))
            prompts_df).

Definition example_model : pydict :=
  [("name", VStr "claude"); ("bedrock_model_id", VStr "anthropic.claude-3");
   ("provider", VStr "Anthropic"); ("tokenizer", VStr "anthropic")].

Definition example_prompts : list Evaluator.prompt_row :=
  [ {| Evaluator.row_prompt_id := Some 1%Z;
       Evaluator.row_prompt := "List three colours as JSON.";
       Evaluator.row_expected_json := true |};
    {| Evaluator.row_prompt_id := Some 2%Z;
       Evaluator.row_prompt := EmptyString;
       Evaluator.row_expected_json := false |};
    {| Evaluator.row_prompt_id := Some 3%Z;
       Evaluator.row_prompt := "Say hello.";
       Evaluator.row_expected_json := false |} ].

(** ** Vocabulary of the report *)

Definition example_row (name status : string) (latency : Q) : Report.row :=
  {| Report.r_model_name := name;
     Report.r_status := status;
     Report.r_input_tokens := 10;
     Report.r_output_tokens := 5;
     Report.r_latency_ms := latency;
     Report.r_json_valid := true;
     Report.r_cost_usd_total := 0.00003 |}.

(** The success records and the error records of one model. *)
Definition successes_of (name : string) (df : Report.frame) : Report.frame :=
  filter (Report.of_model name) (filter Report.is_success df).


(** The number of records the rows of a report stand for. *)
Definition records_counted (rows : list Report.summary) : nat :=
  list_sum (map Report.s_count rows).



Definition example_frame : Report.frame :=
  [example_row "M" "success" 100; example_row "M" "error" 7;
   example_row "M" "success" 300; example_row "M" "success" 200].

Definition example_summary : Report.summary :=
  Report.summarise example_frame "M" (successes_of "M" example_frame).

(** Nested calls the scanner of [json.loads] may need on [l] in mode [m]. *)
Definition fuel_needed (m : Json.mode) (l : list ascii) : nat :=
  2 * List.length l + match m with Json.MElements => 1 | _ => 0 end.

(** ** Numbers *)

Lemma Qnum_nonneg (q : Q) : (0 <= q)%Q -> (0 <= Qnum q)%Z.
Proof.
  unfold Qle; simpl. intros H. rewrite Z.mul_1_r in H. exact H.
Qed.

Lemma trunc_nonneg (q : Q) : (0 <= q)%Q -> (0 <= trunc q)%Z.
Proof.
  intros H. unfold trunc. apply Z.quot_pos; [now apply Qnum_nonneg | lia].
Qed.

Lemma trunc_floor (q : Q) : (0 <= q)%Q -> trunc q = Qfloor q.
Proof.
  intros H. unfold trunc. destruct q as [n d]; simpl.
  apply Z.quot_div_nonneg; [exact (Qnum_nonneg (n # d) H) | lia].
Qed.

Lemma NQ_nonneg (n : nat) : (0 <= NQ n)%Q.
Proof.
  unfold NQ, Qle; simpl. lia.
Qed.

Lemma Qplus_nonneg (a b : Q) : (0 <= a)%Q -> (0 <= b)%Q -> (0 <= a + b)%Q.
Proof.
  intros Ha Hb. exact (Qplus_le_compat 0 a 0 b Ha Hb).
Qed.


(** ** Token estimation *)

Lemma heuristic_count_nonneg (text : string) :
  (0 <= Tokenizers._heuristic_count text)%Z.
Proof.
  unfold Tokenizers._heuristic_count. destruct text; lia.
Qed.

Lemma heuristic_anthropic_nonneg (text : string) :
  (0 <= Tokenizers._heuristic_count_anthropic text)%Z.
Proof.
  unfold Tokenizers._heuristic_count_anthropic. apply trunc_nonneg.
  apply Qplus_nonneg; apply Qmult_le_0_compat;
    auto using NQ_nonneg; now vm_compute.
Qed.

Lemma heuristic_llama_nonneg (text : string) :
  (0 <= Tokenizers._heuristic_count_llama text)%Z.
Proof.
  unfold Tokenizers._heuristic_count_llama. apply trunc_nonneg.
  apply Qplus_nonneg; apply Qmult_le_0_compat;
    auto using NQ_nonneg; now vm_compute.
Qed.

Lemma or_else_nonneg (a : option nat) (b : Z) :
  (0 <= b)%Z -> (0 <= Tokenizers.or_else a b)%Z.
Proof.
  intros Hb. destruct a as [[|n]|]; simpl; lia.
Qed.

Lemma or_else_none (b : Z) : Tokenizers.or_else None b = b.
Proof. reflexivity. Qed.

Create HintDb tokens.
#[local] Hint Resolve heuristic_count_nonneg heuristic_anthropic_nonneg
  heuristic_llama_nonneg or_else_nonneg : tokens.

Lemma count_tokens_nonneg tk kind text :
  (0 <= Tokenizers.count_tokens tk kind text)%Z.
Proof.
  unfold Tokenizers.count_tokens.
  repeat match goal with
         | |- context [if ?b then _ else _] => destruct b
         end; auto with tokens.
Qed.

Lemma count_tokens_empty tk kind :
  encodes_empty_to_nothing tk ->
  Tokenizers.count_tokens tk kind EmptyString = 0%Z.
Proof.
  intros Hempty.
  assert (Hor : forall enc b,
             b = 0%Z ->
             Tokenizers.or_else
               (Tokenizers._count_with_tiktoken tk EmptyString enc) b = 0%Z).
  { intros enc b ->. unfold Tokenizers._count_with_tiktoken.
    destruct tk as [backend|]; [|reflexivity].
    destruct (backend enc EmptyString) as [n|] eqn:E; [|reflexivity].
    rewrite (Hempty backend enc n eq_refl E). reflexivity. }
  unfold Tokenizers.count_tokens.
  repeat match goal with
         | |- context [if ?b then _ else _] => destruct b
         end; try apply Hor; reflexivity.
Qed.

Lemma count_tokens_fallback tk kind text :
  (forall enc, Tokenizers._count_with_tiktoken tk text enc = None) ->
  Tokenizers.count_tokens tk kind text = Tokenizers.count_tokens None kind text.
Proof.
  intros Hfail. unfold Tokenizers.count_tokens.
  rewrite !Hfail. reflexivity.
Qed.

(** C9.  For every tokenizer kind and every text the estimator is a total
    function into the non-negative integers; a tokenizer module that is
    missing or whose encoders raise on the text leaves the heuristic
    estimate; and the empty text counts 0 tokens, whatever the kind, as
    soon as the tokenizer module, when present, encodes the empty text to
    no token. *)
Theorem count_tokens_never_fails :
  forall (tk : Tokenizers.tiktoken_module) (kind text : string),
    (0 <= Tokenizers.count_tokens tk kind text)%Z
    /\ ((forall enc, Tokenizers._count_with_tiktoken tk text enc = None) ->
        Tokenizers.count_tokens tk kind text
        = Tokenizers.count_tokens None kind text)
    /\ (encodes_empty_to_nothing tk ->
        Tokenizers.count_tokens tk kind EmptyString = 0%Z).
Proof.
  intros tk kind text. split; [apply count_tokens_nonneg|].
  split; [apply count_tokens_fallback | apply count_tokens_empty].
Qed.




Lemma count_tokens_never_fails_witness :
  (0 <= Tokenizers.count_tokens (Some (fun _ t => Some (String.length t)))
          "anthropic" "hello")%Z
  /\ Tokenizers.count_tokens (Some (fun _ t => Some (String.length t)))
       "anthropic" EmptyString = 0%Z.
Proof.
  pose proof (count_tokens_never_fails
                (Some (fun _ t => Some (String.length t)))
                "anthropic" "hello") as [H0 [_ H2]].
  split; [exact H0|]. apply H2.
  intros backend enc n Hb He. injection Hb as <-. simpl in He. congruence.
Defined.

(** ** The JSON recogniser *)

Lemma skip_ws_length (l : list ascii) :
  List.length (Json.skip_ws l) <= List.length l.
Proof.
  induction l as [|c r IH]; simpl; [lia|].
  destruct (Json.is_ws c); simpl; lia.
Qed.

Lemma skip_digits_length (l : list ascii) :
  List.length (Json.skip_digits l) <= List.length l.
Proof.
  induction l as [|c r IH]; simpl; [lia|].
  destruct (Json.is_digit c); simpl; lia.
Qed.

Lemma eat_length (p : string) :
  forall l r, Json.eat p l = Some r ->
              List.length r + String.length p = List.length l.
Proof.
  induction p as [|c p IH]; intros l r; simpl.
  - intros H; injection H as <-; lia.
  - destruct l as [|d l]; [discriminate|].
    destruct (Ascii.eqb c d); [|discriminate].
    intros H. apply IH in H. simpl. lia.
Qed.

Lemma scanstring_length :
  forall n l r, List.length l <= n -> Json.scanstring l = Some r ->
                List.length r < List.length l.
Proof.
  induction n as [|n IH]; intros l r Hn.
  - destruct l; [discriminate | simpl in Hn; lia].
  - destruct l as [|c l]; [discriminate|]. cbn [Json.scanstring].
    simpl in Hn.
    destruct (Ascii.eqb c dquote); [intros H; injection H as <-; simpl; lia|].
    destruct (Ascii.eqb c backslash).
    + destruct l as [|e l]; [discriminate|].
      destruct (Ascii.eqb e "u").
      * destruct l as [|h1 [|h2 [|h3 [|h4 l]]]]; try discriminate.
        destruct (_ && _); [|discriminate].
        intros H. apply IH in H; simpl in *; lia.
      * destruct (_ || _); [|discriminate].
        intros H. apply IH in H; simpl in *; lia.
    + destruct (code c <? 32); [discriminate|].
      intros H. apply IH in H; simpl in *; lia.
Qed.

Lemma match_number_length (l r : list ascii) :
  Json.match_number l = Some r -> List.length r < List.length l.
Proof.
  unfold Json.match_number.
  set (l1 := match l with
             | c :: r0 => if Ascii.eqb c "-" then r0 else l
             | [] => l
             end).
  assert (H1 : List.length l1 <= List.length l).
  { subst l1. destruct l as [|c r0]; [lia|].
    destruct (Ascii.eqb c "-"); simpl; lia. }
  clearbody l1. destruct l1 as [|c r1]; [discriminate|].
  destruct (Json.is_digit c); [|discriminate].
  intros H; injection H as <-. simpl in H1.
  set (ai := if Ascii.eqb c "0" then r1 else Json.skip_digits r1).
  assert (Hai : List.length ai <= List.length r1).
  { subst ai. destruct (Ascii.eqb c "0"); [lia | apply skip_digits_length]. }
  clearbody ai.
  set (af := match ai with
             | p :: d :: r2 =>
                 if Ascii.eqb p "." && Json.is_digit d
                 then Json.skip_digits r2 else ai
             | _ => ai
             end).
  assert (Haf : List.length af <= List.length ai).
  { subst af. destruct ai as [|p [|d r2]]; try lia.
    destruct (_ && _); [|lia].
    pose proof (skip_digits_length r2). simpl. lia. }
  clearbody af.
  assert (Hae : List.length
                  match af with
                  | e :: r3 =>
                      if Ascii.eqb e "e" || Ascii.eqb e "E" then
                        match
                          match r3 with
                          | sg :: r5 =>
                              if Ascii.eqb sg "-" || Ascii.eqb sg "+"
                              then r5 else r3
                          | [] => r3
                          end
                        with
                        | d :: r6 =>
                            if Json.is_digit d then Json.skip_digits r6 else af
                        | [] => af
                        end
                      else af
                  | [] => af
                  end <= List.length af).
  { destruct af as [|e r3]; [lia|].
    destruct (_ || _); [|lia].
    destruct r3 as [|sg r5]; [lia|].
    destruct (_ || _).
    - destruct r5 as [|d r6]; [lia|].
      destruct (Json.is_digit d); [|lia].
      pose proof (skip_digits_length r6). simpl. lia.
    - destruct (Json.is_digit sg); [|lia].
      pose proof (skip_digits_length r5). simpl. lia. }
  lia.
Qed.

Lemma literal_length (l r : list ascii) :
  Json.literal l = Some r -> List.length r < List.length l.
Proof.
  unfold Json.literal. destruct l as [|c l0]; [discriminate|].
  repeat match goal with
         | |- context [if ?b then _ else _] => destruct b
         end; try discriminate;
    intros H; apply eat_length in H; simpl in *; lia.
Qed.

Lemma scalar_length (l r : list ascii) :
  Json.first_of (Json.literal l) (Json.match_number l) = Some r ->
  List.length r < List.length l.
Proof.
  unfold Json.first_of.
  destruct (Json.literal l) eqn:E.
  - intros H; injection H as <-. now apply literal_length.
  - apply match_number_length.
Qed.

Ltac len_facts IH :=
  repeat match goal with
         | E : Json.scanstring ?a = Some ?b |- _ =>
             apply (scanstring_length _ a b (le_n _)) in E
         | E : Json.skip_ws ?a = ?b |- _ =>
             let F := fresh "F" in
             assert (F : List.length b <= List.length a)
               by (rewrite <- E; apply skip_ws_length);
             clear E
         | E : Json.scan _ ?m ?a = Some (?k, ?b) |- _ => apply IH in E
         | E : Json.first_of _ _ = Some ?b |- _ => apply scalar_length in E
         end;
  repeat match goal with
         | H : context [Json.skip_ws ?a] |- _ =>
             lazymatch goal with
             | _ : List.length (Json.skip_ws a) <= List.length a |- _ => fail
             | _ => pose proof (skip_ws_length a)
             end
         | |- context [Json.skip_ws ?a] =>
             lazymatch goal with
             | _ : List.length (Json.skip_ws a) <= List.length a |- _ => fail
             | _ => pose proof (skip_ws_length a)
             end
         end.

Ltac split_hyp H :=
  repeat match type of H with
         | context [match ?x with _ => _ end] => destruct x eqn:?
         end.

Lemma scan_length :
  forall f m l k r,
    Json.scan f m l = Some (k, r) -> List.length r < List.length l.
Proof.
  induction f as [|f IH]; intros m l k r H; [discriminate|].
  cbn [Json.scan] in H.
  split_hyp H; try discriminate;
    try (injection H as <- <-); len_facts IH; simpl in *; lia.
Qed.

Lemma scan_stable :
  forall f f' m l,
    fuel_needed m l < f -> fuel_needed m l < f' ->
    Json.scan f m l = Json.scan f' m l.
Proof.
  induction f as [|f IH]; intros f' m l Hf Hf'; [lia|].
  destruct f' as [|f']; [lia|].
  cbn [Json.scan]. unfold fuel_needed in *.
  repeat match goal with
         | |- context [Json.scan f ?m' ?a] =>
             rewrite (IH f' m' a)
               by (unfold fuel_needed; len_facts scan_length;
                   simpl in *; lia)
         | |- match ?x with _ => _ end = match ?x with _ => _ end =>
             destruct x eqn:?
         | |- (if ?x then _ else _) = (if ?x then _ else _) =>
             destruct x eqn:?
         end; reflexivity.
Qed.

(** The fuel [loads] gives the scanner never runs out: more fuel does not
    change the answer. *)
Lemma loads_fuel_is_enough (s : string) (extra : nat) :
  Json.scan (2 * List.length (Json.skip_ws (chars s)) + 2 + extra)
    Json.MValue (Json.skip_ws (chars s))
  = Json.scan (2 * List.length (Json.skip_ws (chars s)) + 2)
      Json.MValue (Json.skip_ws (chars s)).
Proof.
  apply scan_stable; unfold fuel_needed; lia.
Qed.

(** ** Response validation *)

Arguments Json.parses : simpl never.
Arguments strip : simpl never.

Lemma parses_nonempty (c : string) :
  Json.parses c = true -> 0 < String.length c.
Proof.
  destruct c; [discriminate | simpl; lia].
Qed.

Lemma first_some_inv {A : Type} (a : option A) (b : unit -> option A) (x : A) :
  Validator.first_some a b = Some x -> a = Some x \/ (a = None /\ b tt = Some x).
Proof.
  destruct a; simpl; intros H; [left | right]; auto.
Qed.

Lemma first_parsing_stripped_sound cands c :
  Validator.first_parsing_stripped cands = Some c -> Json.parses c = true.
Proof.
  induction cands as [|m rest IH]; simpl; [discriminate|].
  destruct (Json.parses (strip m)) eqn:E; [|exact IH].
  intros H; injection H as <-; exact E.
Qed.

Lemma from_code_blocks_sound patterns text c :
  Validator.from_code_blocks patterns text = Some c -> Json.parses c = true.
Proof.
  induction patterns as [|p rest IH]; simpl; [discriminate|].
  destruct (Validator.first_parsing_stripped (Regex.findall p text)) eqn:E.
  - intros H; injection H as <-. eapply first_parsing_stripped_sound; eauto.
  - exact IH.
Qed.

Ltac split_ifs :=
  repeat match goal with
         | |- context [if ?b then _ else _] => destruct b eqn:?
         end.

Lemma bracket_loop_sound tc sc ec si l :
  forall i bc ins esc c,
    Validator.bracket_loop tc sc ec si l i bc ins esc = Validator.Returned c ->
    Json.parses c = true.
Proof.
  induction l as [|ch rest IH]; intros i bc ins esc c; cbn [Validator.bracket_loop];
    [discriminate|].
  split_ifs; try discriminate; try (apply IH).
  intros H; congruence.
Qed.

Lemma scan_from_start_sound tc sc ec si c :
  Validator.scan_from_start tc sc ec si = Some c -> Json.parses c = true.
Proof.
  unfold Validator.scan_from_start.
  destruct (Validator.bracket_loop _ _ _ _ _ _ _ _ _) as [r|bc lve] eqn:E.
  - intros H; injection H as <-. eapply bracket_loop_sound; eauto.
  - destruct lve as [e|]; [destruct (si <? e)|];
      repeat match goal with
             | |- context [Json.parses ?x] => destruct (Json.parses x) eqn:?
             | |- context [rfind ?a ?b] => destruct (rfind a b)
             | |- context [if ?b then _ else _] => destruct b eqn:?
             end;
      intros H; try discriminate; congruence.
Qed.

Lemma bracket_scan_sound text c :
  Validator.bracket_scan text = Some c -> Json.parses c = true.
Proof.
  unfold Validator.bracket_scan, Validator.bracket_scan_for.
  repeat match goal with
         | |- context [find ?a ?b] => destruct (find a b)
         | |- context [Validator.scan_from_start ?a ?b ?c ?d] =>
             destruct (Validator.scan_from_start a b c d) eqn:?
         end;
    intros H; try discriminate; injection H as <-;
    eapply scan_from_start_sound; eauto.
Qed.

Lemma final_attempt_sound text c :
  Validator.final_attempt text = Some c -> Json.parses c = true.
Proof.
  unfold Validator.final_attempt.
  repeat match goal with
         | |- context [find ?a ?b] => destruct (find a b)
         | |- context [rfind ?a ?b] => destruct (rfind a b)
         | |- context [Json.parses ?x] => destruct (Json.parses x) eqn:?
         | |- context [if ?b then _ else _] => destruct b eqn:?
         end;
    intros H; try discriminate; congruence.
Qed.

(** One update of [best_match]. *)
Lemma better_spec acc x :
  parsed_or_none acc ->
  parsed_or_none (Validator.better acc x)
  /\ (Validator.better acc x = acc \/ Validator.better acc x = Some x)
  /\ (forall a, acc = Some a ->
       exists b, Validator.better acc x = Some b
                 /\ String.length a <= String.length b)
  /\ (Json.parses x = true ->
       exists b, Validator.better acc x = Some b
                 /\ String.length x <= String.length b).
Proof.
  intros Hacc. unfold Validator.better.
  destruct (Json.parses x) eqn:Ex.
  - destruct acc as [a|].
    + destruct (String.length a <? String.length x) eqn:El.
      * apply Nat.ltb_lt in El. repeat split; auto.
        -- intros a' Ha; injection Ha as <-. exists x; split; [reflexivity|lia].
        -- intros _. exists x; split; [reflexivity|lia].
      * apply Nat.ltb_ge in El. repeat split; auto.
        -- intros a' Ha; injection Ha as <-. exists a; split; [reflexivity|lia].
        -- intros _. exists a; split; [reflexivity|lia].
    + pose proof (parses_nonempty x Ex) as Hpos.
      apply Nat.ltb_lt in Hpos. rewrite Hpos. repeat split; auto.
      * intros a' Ha; discriminate.
      * intros _. exists x; split; [reflexivity|lia].
  - repeat split; auto.
    + intros a Ha. exists a; split; [exact Ha|lia].
    + intros Hx; discriminate.
Qed.

(** The fold of the regex fallback keeps the longest candidate that
    parses, the earliest one among equals. *)
Lemma fold_better_spec cands :
  forall acc,
    parsed_or_none acc ->
    match fold_left Validator.better cands acc with
    | Some b =>
        Json.parses b = true
        /\ (acc = Some b \/ In b cands)
        /\ (forall c, In c cands -> Json.parses c = true ->
                      String.length c <= String.length b)
        /\ (forall a, acc = Some a -> String.length a <= String.length b)
    | None =>
        acc = None /\ forall c, In c cands -> Json.parses c = false
    end.
Proof.
  induction cands as [|x rest IH]; intros acc Hacc; simpl.
  - destruct acc as [a|].
    + split; [exact Hacc|]. split; [left; reflexivity|].
      split; [intros c []|]. intros a' Ha; injection Ha as <-; lia.
    + split; [reflexivity | intros c []].
  - destruct (better_spec acc x Hacc) as (Hok & Hsel & Hkeep & Hnew).
    specialize (IH (Validator.better acc x) Hok).
    destruct (fold_left Validator.better rest (Validator.better acc x)) as [b|].
    + destruct IH as (Hb & Hfrom & Hmax & Hacc').
      split; [exact Hb|]. split; [|split].
      * destruct Hfrom as [Hf|Hf]; [|right; right; exact Hf].
        destruct Hsel as [Hs|Hs]; rewrite Hs in Hf.
        -- left; exact Hf.
        -- injection Hf as <-. right; left; reflexivity.
      * intros c [Hx|Hc] Hp; [subst c|auto].
        destruct (Hnew Hp) as (b' & Hb' & Hle).
        specialize (Hacc' b' Hb'). lia.
      * intros a Ha. destruct (Hkeep a Ha) as (b' & Hb' & Hle).
        specialize (Hacc' b' Hb'). lia.
    + destruct IH as (Hnone & Hall).
      split.
      * destruct acc as [a|]; [|reflexivity].
        destruct (Hkeep a eq_refl) as (b' & Hb' & _). congruence.
      * intros c [Hx|Hc]; [subst c|auto].
        destruct (Json.parses x) eqn:Ec; [|reflexivity].
        destruct (Hnew eq_refl) as (b' & Hb' & _). congruence.
Qed.

Lemma best_match_sound cands c :
  Validator.best_match cands = Some c -> Json.parses c = true.
Proof.
  unfold Validator.best_match. intros H.
  pose proof (fold_better_spec cands None I) as S. rewrite H in S. tauto.
Qed.

(** Whatever the validator returns as payload parses, and it reports valid
    exactly when it returns a payload. *)
Lemma validate_sound text b payload :
  Validator._validate_json_with_cleaning text = (b, payload) ->
  match payload with
  | Some c => b = true /\ Json.parses c = true
  | None => b = false
  end.
Proof.
  unfold Validator._validate_json_with_cleaning.
  destruct (_ || _); [intros H; injection H as <- <-; reflexivity|].
  destruct (Json.parses (strip text)) eqn:E;
    [intros H; injection H as <- <-; auto|].
  destruct (Validator.first_some _ _) as [c|] eqn:F;
    intros H; injection H as <- <-; [|reflexivity].
  split; [reflexivity|].
  apply first_some_inv in F as [F|[_ F]];
    [eapply from_code_blocks_sound; eauto|].
  apply first_some_inv in F as [F|[_ F]];
    [eapply bracket_scan_sound; eauto|].
  apply first_some_inv in F as [F|[_ F]];
    [eapply best_match_sound; eauto | eapply final_attempt_sound; eauto].
Qed.









(** ** Identifier variants *)

Lemma existsb_eqb_In (x : string) (l : list string) :
  existsb (String.eqb x) l = true <-> In x l.
Proof.
  rewrite existsb_exists. split.
  - intros (y & Hy & E). apply String.eqb_eq in E. now subst.
  - intros H. exists x. split; [exact H | apply String.eqb_refl].
Qed.

Lemma existsb_eqb_not_In (x : string) (l : list string) :
  existsb (String.eqb x) l = false <-> ~ In x l.
Proof.
  rewrite <- existsb_eqb_In. destruct (existsb _ l); split; congruence.
Qed.

Lemma dedup_seen_spec (l : list string) :
  forall seen,
    NoDup (Invocation.dedup_seen seen l)
    /\ forall x, In x (Invocation.dedup_seen seen l) <-> In x l /\ ~ In x seen.
Proof.
  induction l as [|y r IH]; intros seen; simpl.
  - split; [constructor | intros x; tauto].
  - destruct (existsb (String.eqb y) seen) eqn:E.
    + apply existsb_eqb_In in E. destruct (IH seen) as [Hnd Hin].
      split; [exact Hnd|]. intros x. rewrite Hin. split.
      * tauto.
      * intros [[->|Hx] Hs]; tauto.
    + apply existsb_eqb_not_In in E. destruct (IH (y :: seen)) as [Hnd Hin].
      split.
      * constructor; [|exact Hnd]. rewrite Hin. simpl. tauto.
      * intros x. simpl. rewrite Hin. simpl. split.
        -- intros [->|[Hx Hs]]; tauto.
        -- intros [[->|Hx] Hs]; [tauto|].
           destruct (string_dec y x); [tauto|right; tauto].
Qed.


Lemma dedup_In (l : list string) (x : string) :
  In x (Invocation.dedup l) <-> In x l.
Proof.
  unfold Invocation.dedup. rewrite (proj2 (dedup_seen_spec l [])). simpl. tauto.
Qed.

(** On a list without repetition nothing is removed or moved. *)
Lemma dedup_seen_fixed (l : list string) :
  forall seen,
    NoDup l -> (forall x, In x l -> ~ In x seen) ->
    Invocation.dedup_seen seen l = l.
Proof.
  induction l as [|y r IH]; intros seen Hnd Hfresh; simpl; [reflexivity|].
  inversion Hnd as [|? ? Hy Hr]; subst.
  assert (E : existsb (String.eqb y) seen = false).
  { apply existsb_eqb_not_In. apply Hfresh. now left. }
  rewrite E. f_equal. apply IH; [exact Hr|].
  intros x Hx [<-|Hs]; [tauto|]. apply (Hfresh x); [now right | exact Hs].
Qed.

Lemma dedup_fixed (l : list string) : NoDup l -> Invocation.dedup l = l.
Proof.
  intros H. apply dedup_seen_fixed; [exact H | intros x _ []].
Qed.

(** The first identifier built is the first one tried. *)
Lemma dedup_head (x : string) (l : list string) :
  exists rest, Invocation.dedup (x :: l) = x :: rest.
Proof.
  unfold Invocation.dedup. simpl. eauto.
Qed.


(** ** The loop over the variants *)

Lemma on_error_next ac region variants v e variants' last_error :
  Invocation.on_error ac region variants v e
  = Invocation.Next variants' last_error ->
  variants' = variants
  \/ (variants' = (variants ++ [("us." ++ v)%string])%list /\ can_append v = true).
Proof.
  unfold Invocation.on_error, Invocation.with_profile_variant.
  fold (can_append v).
  destruct e; split_ifs; intros H; inversion H; subst; auto.
Qed.

Lemma on_error_catchable ac region variants v e e' :
  catchable e ->
  Invocation.on_error ac region variants v e = Invocation.Abort e' ->
  catchable e'.
Proof.
  unfold Invocation.on_error.
  destruct e; simpl; [| |tauto]; intros _; split_ifs;
    intros H; inversion H; subst; exact I.
Qed.

Lemma on_error_access region variants v code message text :
  Invocation.is_access_error
    (Invocation.opt_default "Unknown" code)
    (Invocation.opt_default text message) = true ->
  Invocation.on_error true region variants v (ClientError code message text)
  = Invocation.Abort
      (Invocation.Exception (Invocation.access_remediation v region)).
Proof.
  intros H. unfold Invocation.on_error. rewrite H. reflexivity.
Qed.

Lemma can_append_profile (v : string) : can_append ("us." ++ v) = false.
Proof. destruct v; reflexivity. Qed.

Lemma iterations_left_step (l1 l2 : list string) (v : string)
  (variants' : list string) :
  variants' = (l1 ++ v :: l2)%list
  \/ (variants' = ((l1 ++ v :: l2) ++ [("us." ++ v)%string])%list
      /\ can_append v = true) ->
  iterations_left variants' (S (List.length l1))
  < iterations_left (l1 ++ v :: l2)%list (List.length l1).
Proof.
  unfold iterations_left.
  assert (Hskip : forall t : list string,
             skipn (List.length l1) (l1 ++ t) = t).
  { intros t. rewrite skipn_app, skipn_all, Nat.sub_diag. reflexivity. }
  assert (Hskip' : forall t : list string,
             skipn (S (List.length l1)) (l1 ++ v :: t) = t).
  { intros t. change (S (List.length l1)) with (1 + List.length l1).
    rewrite <- skipn_skipn, Hskip. reflexivity. }
  intros [->|[-> Hv]].
  - rewrite Hskip, Hskip'. rewrite length_app. simpl.
    destruct (can_append v); simpl; lia.
  - rewrite <- app_assoc, <- app_comm_cons, Hskip', Hskip.
    rewrite !length_app. cbn [filter List.length]. rewrite Hv.
    rewrite filter_app, length_app. cbn [filter].
    rewrite can_append_profile, ?app_nil_r. cbn [List.length]. lia.
Qed.

Section LoopFacts.
Variable access_check : bool.
Variable region : string.
Variable attempt : string -> result Invocation.invocation.

(** The loop finishes within [iterations_left] iterations. *)
Lemma variant_loop_finishes :
  forall fuel variants i last_error trace,
    iterations_left variants i < fuel ->
    exists r, Invocation.variant_loop access_check region attempt fuel variants i last_error trace = Some r.
Proof.
  induction fuel as [|f IH]; intros variants i last_error trace Hfuel;
    [lia|].
  cbn [Invocation.variant_loop].
  destruct (nth_error variants i) as [v|] eqn:Hnth; [|eauto].
  destruct (attempt v) as [r|e]; [eauto|].
  destruct (Invocation.on_error access_check region variants v e)
    as [e'|variants' le'] eqn:Herr; [eauto|].
  apply IH.
  apply on_error_next in Herr.
  apply nth_error_split in Hnth as (l1 & l2 & -> & <-).
  pose proof (iterations_left_step l1 l2 v variants' Herr). lia.
Qed.

Lemma enough_is_enough (variants : list string) :
  iterations_left variants 0 < Invocation.enough variants.
Proof.
  unfold iterations_left, Invocation.enough. simpl.
  pose proof (filter_length_le can_append variants). lia.
Qed.

(** The function that runs the loop returns what the loop returns. *)
Lemma run_variants_is_loop (variants : list string) :
  exists fuel,
    Invocation.variant_loop access_check region attempt fuel variants 0 None []
    = Some (Invocation.run_variants access_check region attempt variants).
Proof.
  exists (Invocation.enough variants). unfold Invocation.run_variants.
  destruct (variant_loop_finishes (Invocation.enough variants) variants 0
              None [] (enough_is_enough variants)) as [r Hr].
  rewrite Hr. reflexivity.
Qed.

(** Only an exception of the attempt that [except Exception] does not catch
    leaves the loop uncaught. *)
Lemma variant_loop_catchable :
  (forall v, never_base (attempt v)) ->
  forall fuel variants i last_error trace res trace',
    Invocation.variant_loop access_check region attempt fuel variants i last_error trace = Some (res, trace') ->
    never_base res.
Proof.
  intros Hattempt.
  induction fuel as [|f IH]; intros variants i last_error trace res trace';
    [discriminate|].
  cbn [Invocation.variant_loop].
  destruct (nth_error variants i) as [v|] eqn:Hnth.
  - pose proof (Hattempt v) as Hv.
    destruct (attempt v) as [r|e].
    + intros H; inversion H; subst; exact I.
    + destruct (Invocation.on_error access_check region variants v e)
        as [e'|variants' le'] eqn:Herr.
      * intros H; inversion H; subst. simpl.
        eapply on_error_catchable; eauto.
      * apply IH.
  - intros H; inversion H; subst; exact I.
Qed.

End LoopFacts.

Section AccessError.
Variable region : string.
Variable attempt : string -> result Invocation.invocation.

(** Once an attempt is denied access, it is the last one sent and the loop
    raises the remediation text for its identifier. *)
Lemma variant_loop_stops_on_access_error :
  forall fuel variants i last_error trace res trace',
    Invocation.variant_loop true region attempt fuel variants i last_error trace = Some (res, trace') ->
    exists sent,
      trace' = (trace ++ sent)%list
      /\ forall before v after,
           sent = (before ++ v :: after)%list ->
           access_denied (attempt v) ->
           after = []
           /\ res = Raise (Invocation.Exception
                             (Invocation.access_remediation v region)).
Proof.
  induction fuel as [|f IH]; intros variants i last_error trace res trace';
    [discriminate|].
  cbn [Invocation.variant_loop].
  destruct (nth_error variants i) as [vid|] eqn:Hnth.
  - destruct (attempt vid) as [r|e] eqn:Hatt.
    + intros H; inversion H; subst. exists [vid]. split; [reflexivity|].
      intros before v after Hsplit (code & message & text & Hv & _).
      destruct before as [|b before]; simpl in Hsplit.
      * injection Hsplit as <- <-. congruence.
      * injection Hsplit as _ Hbad. now destruct before.
    + destruct (Invocation.on_error true region variants vid e)
        as [e'|variants' le'] eqn:Herr.
      * intros H; inversion H; subst. exists [vid]. split; [reflexivity|].
        intros before v after Hsplit (code & message & text & Hv & Hacc).
        destruct before as [|b before]; simpl in Hsplit.
        -- injection Hsplit as <- <-. split; [reflexivity|].
           rewrite Hatt in Hv. injection Hv as ->.
           rewrite (on_error_access region variants vid _ _ _ Hacc) in Herr.
           congruence.
        -- injection Hsplit as _ Hbad. now destruct before.
      * intros H. apply IH in H as (sent & -> & Hsent).
        exists (vid :: sent). split; [now rewrite <- app_assoc|].
        intros before v after Hsplit Hden.
        destruct before as [|b before]; simpl in Hsplit.
        -- injection Hsplit as <- <-.
           destruct Hden as (code & message & text & Hv & Hacc).
           rewrite Hatt in Hv. injection Hv as ->.
           rewrite (on_error_access region variants vid _ _ _ Hacc) in Herr.
           discriminate.
        -- injection Hsplit as _ Hrest. eapply Hsent; eauto.
  - intros H; inversion H; subst. exists []. split; [now rewrite app_nil_r|].
    intros before v after Hsplit. now destruct before.
Qed.

End AccessError.

(** ** Substrings of concatenations *)

Lemma startswith_app_l (p a b : string) :
  startswith p a = true -> startswith p (a ++ b) = true.
Proof.
  unfold startswith. revert a.
  induction p as [|c p IH]; intros a; [destruct (a ++ b); reflexivity|].
  destruct a as [|d a]; simpl; [discriminate|].
  destruct (ascii_dec c d); [apply IH | discriminate].
Qed.

Lemma find_from_any_index (p s : string) :
  forall i j, find_from p s i <> None -> find_from p s j <> None.
Proof.
  induction s as [|d s IH]; intros i j; cbn [find_from];
    destruct (startswith p _); try discriminate; auto.
  apply IH.
Qed.

Lemma find_from_app_l (p a b : string) :
  forall i, find_from p a i <> None -> find_from p (a ++ b) i <> None.
Proof.
  induction a as [|d a IH]; intros i; cbn [find_from append].
  - destruct (startswith p EmptyString) eqn:E; [|intros H; now elim H].
    intros _. destruct p; [|discriminate].
    destruct b; cbn [find_from]; discriminate.
  - destruct (startswith p (String d a)) eqn:E.
    + intros _. pose proof (startswith_app_l p (String d a) b E) as E'.
      cbn [append] in E'. rewrite E'. discriminate.
    + intros H. destruct (startswith p (String d (a ++ b)));
        [discriminate | now apply IH].
Qed.

Lemma find_from_app_r (p a b : string) :
  forall i j, find_from p b j <> None -> find_from p (a ++ b) i <> None.
Proof.
  induction a as [|d a IH]; intros i j H; cbn [find_from append].
  - eapply find_from_any_index; eauto.
  - destruct (startswith p (String d (a ++ b))); [discriminate|].
    eapply IH; eauto.
Qed.

Lemma contains_app_l (p a b : string) :
  contains p a = true -> contains p (a ++ b) = true.
Proof.
  unfold contains, find. intros H.
  pose proof (find_from_app_l p a b 0) as F.
  destruct (find_from p a 0); [|discriminate].
  destruct (find_from p (a ++ b) 0); [reflexivity|].
  exfalso. apply F; congruence.
Qed.

Lemma contains_app_r (p a b : string) :
  contains p b = true -> contains p (a ++ b) = true.
Proof.
  unfold contains, find. intros H.
  pose proof (find_from_app_r p a b 0 0) as F.
  destruct (find_from p b 0); [|discriminate].
  destruct (find_from p (a ++ b) 0); [reflexivity|].
  exfalso. apply F; congruence.
Qed.

Ltac find_piece :=
  repeat first [ reflexivity
               | apply contains_app_l; reflexivity
               | apply contains_app_r ].

(** The remediation text names the console page of the region and the
    action to take there. *)
Lemma remediation_names_console_action (tried region : string) :
  contains "Go to AWS Bedrock Model Access: https://console.aws.amazon.com/bedrock/home?region="
    (Invocation.access_remediation tried region) = true
  /\ contains "Click 'Request model access' or 'Enable'"
       (Invocation.access_remediation tried region) = true
  /\ contains "Wait 5-15 minutes for approval"
       (Invocation.access_remediation tried region) = true.
Proof.
  unfold Invocation.access_remediation. repeat split; find_piece.
Qed.

(** ** Access errors *)

(** C6.  Within one call of the chat-style protocol, an attempt that the
    service answers with the access error (a ResourceNotFoundException
    whose message mentions the use case details) is the last request sent:
    no identifier follows it in the list of requests of the call, and the
    call raises the remediation text for that identifier, which names the
    console page and the action to take there. *)
Theorem access_error_aborts_without_further_attempt :
  forall (self : Invocation.env) (prompt model_id : string)
         (gen_params tokenizer_type : pyval) (use_inference_profile : bool)
         (res : result Invocation.invocation)
         (requests before after : list string) (v : string),
    Evaluator._invoke_converse self prompt model_id gen_params tokenizer_type
      use_inference_profile = (res, requests) ->
    requests = (before ++ v :: after)%list ->
    (forall cfg, access_denied (Invocation.converse self v prompt cfg)) ->
    after = []
    /\ res = Raise (Invocation.Exception
                      (Invocation.access_remediation v
                         (Invocation.region_name self)))
    /\ contains "Click 'Request model access' or 'Enable'"
         (Invocation.access_remediation v (Invocation.region_name self))
       = true.
Proof.
  intros self prompt model_id gen_params tokenizer_type uip res requests
         before after v Hrun Hsplit Hdenied.
  split; [|split]; [| |apply remediation_names_console_action].
  all: unfold Evaluator._invoke_converse in Hrun.
  all: destruct (bind (py_get gen_params "max_tokens" (VInt 512)) _)
         as [cfg|e] eqn:Hcfg;
       [|injection Hrun as <- <-; now destruct before].
  all: destruct (run_variants_is_loop true (Invocation.region_name self)
                   (Evaluator.converse_attempt self prompt cfg tokenizer_type)
                   (Invocation.converse_variants (Invocation.region_name self)
                      model_id uip)) as [fuel Hloop].
  all: rewrite Hrun in Hloop.
  all: apply variant_loop_stops_on_access_error in Hloop
         as (sent & Hsent & Hstop).
  all: simpl in Hsent; subst sent.
  all: assert (Hv : access_denied
                      (Evaluator.converse_attempt self prompt cfg
                         tokenizer_type v))
         by (destruct (Hdenied cfg) as (code & message & text & Hc & Hacc);
             exists code, message, text; split; [|exact Hacc];
             unfold Evaluator.converse_attempt; now rewrite Hc).
  all: destruct (Hstop before v after Hsplit Hv) as [Hafter Hres]; assumption.
Qed.

Lemma access_error_aborts_without_further_attempt_witness :
  snd (Evaluator._invoke_converse
         (example_env "us-east-1" denying_client unused_body)
         "hello" "anthropic.claude-3:0" (VDict []) (VStr "anthropic") false)
  = ["anthropic.claude-3:0"]
  /\ fst (Evaluator._invoke_converse
            (example_env "us-east-1" denying_client unused_body)
            "hello" "anthropic.claude-3:0" (VDict []) (VStr "anthropic") false)
     = Raise (Invocation.Exception
                (Invocation.access_remediation "anthropic.claude-3:0"
                   "us-east-1")).
Proof.
  split; [vm_compute; reflexivity|].
  refine (proj1 (proj2
    (access_error_aborts_without_further_attempt
       (example_env "us-east-1" denying_client unused_body)
       "hello" "anthropic.claude-3:0" (VDict []) (VStr "anthropic") false
       _ _ [] [] "anthropic.claude-3:0" (surjective_pairing _) _ _))).
  - vm_compute. reflexivity.
  - intros cfg. exists (Some "ResourceNotFoundException").
    eexists. eexists. split; [reflexivity | vm_compute; reflexivity].
Defined.


(** ** [evaluate_prompt] *)

Lemma no_attribute_catchable (v : pyval) (attr : string) :
  catchable (no_attribute v attr).
Proof. exact I. Qed.

Lemma py_get_never_base {A : Type} (v : pyval) (key : string) (d : pyval)
  (k : pyval -> result A) :
  (forall x, never_base (k x)) -> never_base (bind (py_get v key d) k).
Proof.
  intros Hk. destruct v; simpl; auto.
Qed.

Lemma py_count_tokens_never_base self v text :
  never_base (Evaluator.py_count_tokens self v text).
Proof. destruct v; exact I. Qed.

Lemma converse_attempt_never_base self prompt cfg tokenizer_type v :
  (forall v p cfg, never_base (Invocation.converse self v p cfg)) ->
  never_base (Evaluator.converse_attempt self prompt cfg tokenizer_type v).
Proof.
  intros Hc. unfold Evaluator.converse_attempt.
  pose proof (Hc v prompt cfg) as H.
  destruct (Invocation.converse self v prompt cfg) as [r|e]; [|exact H].
  cbn [bind]. destruct (Invocation.outputTokens r =? 0)%Z; [|exact I].
  pose proof (py_count_tokens_never_base self tokenizer_type
                (Evaluator.response_text_of (Invocation.content r))) as H'.
  destruct (Evaluator.py_count_tokens self tokenizer_type _); [exact I|exact H'].
Qed.

Lemma try_invoke_never_base self prompt v provider gen_params tokenizer_type :
  (forall p v pr g t, never_base (Invocation.invoke_body self p v pr g t)) ->
  never_base (Evaluator._try_invoke_model_direct self prompt v provider
                gen_params tokenizer_type).
Proof.
  intros Hb. unfold Evaluator._try_invoke_model_direct.
  pose proof (Hb prompt v provider gen_params tokenizer_type) as H.
  destruct (Invocation.invoke_body self prompt v provider gen_params
              tokenizer_type) as [r|[c m t|c t|c t]]; simpl in *; auto.
Qed.

Lemma run_variants_never_base ac region attempt variants :
  (forall v, never_base (attempt v)) ->
  never_base (fst (Invocation.run_variants ac region attempt variants)).
Proof.
  intros Ha.
  destruct (run_variants_is_loop ac region attempt variants) as [fuel Hloop].
  destruct (Invocation.run_variants ac region attempt variants) as [res tr].
  eapply variant_loop_catchable; eauto.
Qed.

(** Whatever the client does short of raising outside [Exception],
    [_invoke_model] returns or raises a subclass of [Exception]. *)
Lemma invoke_model_never_base self prompt model provider gen_params :
  client_raises_exceptions_only self ->
  never_base (fst (Evaluator._invoke_model self prompt model provider
                     gen_params)).
Proof.
  intros [Hc Hb]. unfold Evaluator._invoke_model.
  destruct (dict_get model "bedrock_model_id" VNone) as [| | | |id|l|d];
    try (unfold Evaluator.bad_model_id; simpl;
         repeat match goal with
                | |- context [if ?b then _ else _] => destruct b
                end; exact I).
  destruct (_ || _).
  - unfold Evaluator._invoke_converse.
    destruct gen_params; try exact I. cbn [py_get bind].
    apply run_variants_never_base. intros v.
    now apply converse_attempt_never_base.
  - unfold Evaluator._invoke_model_direct.
    apply run_variants_never_base. intros v.
    now apply try_invoke_never_base.
Qed.

Lemma on_exception_spec self m local e :
  catchable e ->
  Evaluator.input_tokens m = local ->
  exists m',
    Evaluator.on_exception self m local e = Ok m'
    /\ Evaluator.status m' = "error"
    /\ Evaluator.error m'
       = Some (if contains "use case details" (lower (exn_str e))
                  && contains "ResourceNotFoundException" (exn_str e)
                  && negb (contains "TO FIX THIS ERROR" (exn_str e))
               then Invocation.access_remediation
                      (py_format (Evaluator.model_id m))
                      (Invocation.region_name self)
               else exn_str e)
    /\ Evaluator.input_tokens m' = local
    /\ Evaluator.output_tokens m' = Evaluator.output_tokens m
    /\ Evaluator.latency_ms m' = Invocation.elapsed_ms self
    /\ Evaluator.cost_usd_input m' = Evaluator.cost_usd_input m
    /\ Evaluator.cost_usd_output m' = Evaluator.cost_usd_output m
    /\ Evaluator.cost_usd_total m' = Evaluator.cost_usd_total m.
Proof.
  intros He Hlocal. unfold Evaluator.on_exception.
  destruct e as [c ms t|c t|c t]; [| |destruct He];
    eexists; (split; [reflexivity|]); cbn;
    rewrite Hlocal; destruct (local =? 0)%Z; repeat split; reflexivity.
Qed.

Lemma py_float_never_base (v : pyval) : never_base (py_float v).
Proof.
  destruct v; simpl; try exact I. destruct (float_of_string s); exact I.
Qed.

Lemma get_model_pricing_never_base (model : pydict) :
  never_base (ModelRegistry.get_model_pricing model).
Proof.
  unfold ModelRegistry.get_model_pricing.
  destruct (dict_get model "pricing" (VDict [])); try exact I.
  cbn [py_get bind].
  pose proof (py_float_never_base
                (dict_get d "input_per_1k_tokens_usd" (VFloat (FFin 0)))) as Hi.
  destruct (py_float (dict_get d "input_per_1k_tokens_usd" _)); [|exact Hi].
  cbn [bind].
  pose proof (py_float_never_base
                (dict_get d "output_per_1k_tokens_usd" (VFloat (FFin 0)))) as Ho.
  destruct (py_float (dict_get d "output_per_1k_tokens_usd" _)); [|exact Ho].
  exact I.
Qed.




(** ** Cost *)

Lemma Qred_zero (q : Q) : (q == 0)%Q -> Qred q = 0%Q.
Proof.
  intros H. now rewrite (Qred_complete q 0 H).
Qed.








(** ** Pricing *)






(** ** Aggregation *)

Lemma string_lt_trans (a b c : string) :
  String_as_OT.lt a b -> String_as_OT.lt b c -> String_as_OT.lt a c.
Proof. apply String_as_OT.lt_strorder. Qed.

Lemma string_lt_irrefl (a : string) : ~ String_as_OT.lt a a.
Proof. apply String_as_OT.lt_strorder. Qed.

Lemma insert_name_In (y : string) (l : list string) (x : string) :
  In x (Report.insert_name y l) <-> x = y \/ In x l.
Proof.
  induction l as [|a r IH]; cbn [Report.insert_name In]; [intuition|].
  destruct (String_as_OT.compare_spec y a) as [E|L|G]; cbn [In].
  - change (y = a) in E. subst a. intuition.
  - intuition.
  - rewrite IH. intuition.
Qed.

Lemma insert_name_sorted (y : string) (l : list string) :
  StronglySorted String_as_OT.lt l ->
  StronglySorted String_as_OT.lt (Report.insert_name y l).
Proof.
  induction 1 as [|a r Hr IH Ha]; cbn [Report.insert_name].
  - repeat constructor.
  - destruct (String_as_OT.compare_spec y a) as [E|L|G].
    + now constructor.
    + constructor; [now constructor|].
      constructor; [exact L|].
      eapply Forall_impl; [|exact Ha]. intros z Hz.
      eapply string_lt_trans; eauto.
    + constructor; [exact IH|].
      apply Forall_forall. intros z Hz.
      apply insert_name_In in Hz as [->|Hz]; [exact G|].
      rewrite Forall_forall in Ha. now apply Ha.
Qed.

Lemma group_keys_sorted (df : Report.frame) :
  StronglySorted String_as_OT.lt (Report.group_keys df).
Proof.
  unfold Report.group_keys.
  induction (map Report.r_model_name df) as [|n names IH]; simpl;
    [constructor | now apply insert_name_sorted].
Qed.

Lemma group_keys_In (df : Report.frame) (name : string) :
  In name (Report.group_keys df) <-> In name (map Report.r_model_name df).
Proof.
  unfold Report.group_keys.
  induction (map Report.r_model_name df) as [|n names IH]; simpl; [tauto|].
  rewrite insert_name_In, IH. intuition.
Qed.

Lemma sorted_NoDup (l : list string) :
  StronglySorted String_as_OT.lt l -> NoDup l.
Proof.
  induction 1 as [|a r Hr IH Ha]; constructor; [|exact IH].
  intros Hin. rewrite Forall_forall in Ha.
  exact (string_lt_irrefl a (Ha a Hin)).
Qed.

Lemma of_model_eq (name : string) (r : Report.row) :
  Report.of_model name r = true <-> Report.r_model_name r = name.
Proof. apply String.eqb_eq. Qed.

(** The rows of the report, one for each key of the success frame. *)
Lemma report_rows (success_df df : Report.frame) (keys : list string) :
  (forall k, In k keys -> In k (map Report.r_model_name success_df)) ->
  flat_map (fun model_name =>
              match filter (Report.of_model model_name) success_df with
              | [] => []
              | group => [Report.summarise df model_name group]
              end) keys
  = map (fun model_name =>
           Report.summarise df model_name
             (filter (Report.of_model model_name) success_df)) keys.
Proof.
  induction keys as [|k keys IH]; intros Hkeys; simpl; [reflexivity|].
  rewrite IH by (intros k' Hk'; apply Hkeys; now right). clear IH.
  assert (Hk : In k (map Report.r_model_name success_df))
    by (apply Hkeys; now left).
  apply in_map_iff in Hk as (r & Hr & Hin).
  assert (Hg : In r (filter (Report.of_model k) success_df)).
  { apply filter_In. split; [exact Hin | now apply of_model_eq]. }
  destruct (filter (Report.of_model k) success_df); [destruct Hg | reflexivity].
Qed.

Lemma generate_report_rows (df : Report.frame) :
  Report.generate_report df
  = map (fun model_name =>
           Report.summarise df model_name (successes_of model_name df))
        (Report.group_keys (filter Report.is_success df)).
Proof.
  unfold Report.generate_report, successes_of.
  destruct df as [|r df]; [reflexivity|].
  apply report_rows. intros k Hk. now apply group_keys_In.
Qed.





(* ================================================================== *)
(** * Further properties                                                *)
(* ================================================================== *)

(** ** The model registry *)

Lemma is_str_true name v : ModelRegistry.is_str name v = true <-> v = VStr name.
Proof.
  destruct v; simpl; try (split; [discriminate|congruence]).
  rewrite String.eqb_eq. split; congruence.
Qed.

Lemma is_str_false name v : ModelRegistry.is_str name v = false <-> v <> VStr name.
Proof.
  rewrite <- is_str_true. destruct (ModelRegistry.is_str name v); split; congruence.
Qed.

Lemma first_named_found name models m :
  ModelRegistry.first_named name models = Ok (Some m) ->
  exists before after,
    models = (before ++ m :: after)%list
    /\ named name m
    /\ forall b, In b before -> named_otherwise name b.
Proof.
  induction models as [|model rest IH]; simpl; [discriminate|].
  destruct (py_get model "name" VNone) as [n|e] eqn:Hn; cbn [bind];
    [|discriminate].
  destruct (ModelRegistry.is_str name n) eqn:Hs.
  - intros H; injection H as <-. apply is_str_true in Hs. subst n.
    exists [], rest. repeat split; auto. intros b [].
  - intros H. destruct (IH H) as (before & after & -> & Hm & Hb).
    exists (model :: before), after. repeat split; auto.
    intros b [<-|Hin]; [|auto]. exists n. split; [exact Hn|].
    now apply is_str_false.
Qed.

Lemma first_named_missing name models :
  ModelRegistry.first_named name models = Ok None ->
  forall b, In b models -> named_otherwise name b.
Proof.
  induction models as [|model rest IH]; simpl; [intros _ b []|].
  destruct (py_get model "name" VNone) as [n|e] eqn:Hn; cbn [bind];
    [|discriminate].
  destruct (ModelRegistry.is_str name n) eqn:Hs; [discriminate|].
  intros H b [<-|Hin]; [|auto]. exists n. split; [exact Hn|].
  now apply is_str_false.
Qed.

Lemma first_named_total name models :
  Forall is_dict models ->
  exists r, ModelRegistry.first_named name models = Ok r.
Proof.
  induction 1 as [|model rest Hd _ IH]; simpl; [eauto|].
  destruct model; try destruct Hd. cbn [py_get bind].
  destruct (ModelRegistry.is_str name _); eauto.
Qed.

(** X1.  [get_model_by_name] returns the first entry of the catalog that
    bears the requested name: every entry before it bears another name.  It
    returns [None] only when every entry of the catalog bears another name.
    On a catalog whose entries are all mappings it returns and does not
    raise. *)
Theorem get_model_by_name_returns_the_first_match :
  forall (config : pydict) (name : string),
    (forall m, ModelRegistry.get_model_by_name config name = Ok (Some m) ->
       exists before after,
         ModelRegistry.list_models config = Ok (before ++ m :: after)%list
         /\ named name m
         /\ forall b, In b before -> named_otherwise name b)
    /\ (ModelRegistry.get_model_by_name config name = Ok None ->
        exists models,
          ModelRegistry.list_models config = Ok models
          /\ forall b, In b models -> named_otherwise name b)
    /\ (forall models,
          ModelRegistry.list_models config = Ok models ->
          Forall is_dict models ->
          exists r, ModelRegistry.get_model_by_name config name = Ok r).
Proof.
  intros config name. unfold ModelRegistry.get_model_by_name.
  destruct (ModelRegistry.list_models config) as [models|e]; cbn [bind].
  - split; [|split].
    + intros m H. destruct (first_named_found _ _ _ H) as (b & a & -> & Hm & Hb).
      exists b, a. auto.
    + intros H. exists models. split; [reflexivity|].
      now apply first_named_missing.
    + intros models' H Hd. injection H as <-. now apply first_named_total.
  - split; [|split]; intros; discriminate.
Qed.

Lemma get_model_by_name_returns_the_first_match_witness :
  exists before after,
    ModelRegistry.list_models example_config
    = Ok (before ++ example_llama :: after)%list
    /\ named "llama" example_llama
    /\ forall b, In b before -> named_otherwise "llama" b.
Proof.
  apply (proj1 (get_model_by_name_returns_the_first_match example_config
                  "llama")).
  reflexivity.
Defined.

Lemma named_entry_is_truthy name m : named name m -> truthy m = true.
Proof.
  unfold named. destruct m; try discriminate.
  cbn [py_get]. intros H; injection H as H. unfold dict_get in H.
  destruct d; [discriminate | reflexivity].
Qed.

Lemma collect_named_spec config models names :
  ModelRegistry.list_models config = Ok models ->
  Forall is_dict models ->
  exists found,
    ModelRegistry.collect_named config names = Ok found
    /\ List.length found <= List.length names
    /\ (forall m, In m found ->
          In m models /\ exists n, In n names /\ named n m)
    /\ (forall n m, In n names -> In m models -> named n m ->
          exists m', In m' found /\ named n m').
Proof.
  intros Hlist Hdict.
  induction names as [|name rest IH]; simpl.
  - exists []. repeat split; auto; intros; contradiction.
  - destruct IH as (found & Hfound & Hlen & Hsound & Hcomplete).
    unfold ModelRegistry.get_model_by_name. rewrite Hlist. cbn [bind].
    destruct (first_named_total name models Hdict) as [r Hr].
    rewrite Hr, Hfound. cbn [bind].
    destruct r as [m|].
    + destruct (first_named_found _ _ _ Hr) as (before & after & -> & Hm & Hb).
      rewrite (named_entry_is_truthy name m Hm).
      eexists. split; [reflexivity|].
      split; [simpl; lia|]. split.
      * intros m' [<-|Hin].
        -- split; [apply in_or_app; right; now left|].
           exists name. split; [now left | exact Hm].
        -- destruct (Hsound m' Hin) as (Hin' & n & Hn & Hnm).
           split; [exact Hin'|]. exists n. split; [now right | exact Hnm].
      * intros n m' [<-|Hn] Hin Hnm.
        -- exists m. split; [now left | exact Hm].
        -- destruct (Hcomplete n m' Hn Hin Hnm) as (m'' & Hin'' & Hnm'').
           exists m''. split; [now right | exact Hnm''].
    + pose proof (first_named_missing _ _ Hr) as Hother.
      eexists. split; [reflexivity|].
      split; [simpl; lia|]. split.
      * intros m' Hin. destruct (Hsound m' Hin) as (Hin' & n & Hn & Hnm).
        split; [exact Hin'|]. exists n. split; [now right | exact Hnm].
      * intros n m' [<-|Hn] Hin Hnm.
        -- destruct (Hother m' Hin) as (n' & Hn' & Hne).
           unfold named in Hnm. congruence.
        -- destruct (Hcomplete n m' Hn Hin Hnm) as (m'' & Hin'' & Hnm'').
           exists m''. split; [exact Hin'' | exact Hnm''].
Qed.

(** X2.  On a catalog whose entries are all mappings,
    [get_models_by_names] returns the whole catalog when "all" is among the
    names.  Otherwise it returns at most one entry for each requested name:
    every entry returned is in the catalog and bears a requested name, every
    requested name that an entry of the catalog bears is represented, and a
    name that no entry bears is passed over without an error. *)
Theorem get_models_by_names_resolves_what_exists :
  forall (config : pydict) (models : list pyval) (names : list string),
    ModelRegistry.list_models config = Ok models ->
    Forall is_dict models ->
    (In "all" names ->
     ModelRegistry.get_models_by_names config names = Ok models)
    /\ (~ In "all" names ->
        exists found,
          ModelRegistry.get_models_by_names config names = Ok found
          /\ List.length found <= List.length names
          /\ (forall m, In m found ->
                In m models /\ exists n, In n names /\ named n m)
          /\ (forall n m, In n names -> In m models -> named n m ->
                exists m', In m' found /\ named n m')).
Proof.
  intros config models names Hlist Hdict.
  unfold ModelRegistry.get_models_by_names. split; intros Hall.
  - assert (E : existsb (String.eqb "all") names = true).
    { apply existsb_exists. exists "all". split; [exact Hall | reflexivity]. }
    rewrite E. exact Hlist.
  - assert (E : existsb (String.eqb "all") names = false).
    { destruct (existsb (String.eqb "all") names) eqn:E; [|reflexivity].
      apply existsb_exists in E as (x & Hx & Heq).
      apply String.eqb_eq in Heq. subst x. contradiction. }
    rewrite E. now apply collect_named_spec.
Qed.

Lemma get_models_by_names_resolves_what_exists_witness :
  exists found,
    ModelRegistry.get_models_by_names example_config ["llama"; "mistral"]
    = Ok found
    /\ List.length found <= 2.
Proof.
  destruct (get_models_by_names_resolves_what_exists example_config
              [example_claude; example_llama] ["llama"; "mistral"])
    as (_ & Hnames).
  - reflexivity.
  - repeat constructor.
  - destruct Hnames as (found & Hfound & Hlen & _).
    + intros [H|[H|[]]]; discriminate H.
    + exists found. split; [exact Hfound | exact Hlen].
Defined.

(** ** Token estimates *)

Lemma anthropic_blend (c w : nat) :
  (NQ c / 4 + NQ w * 0.25 == (Z.of_nat c + Z.of_nat w) # 4)%Q.
Proof.
  unfold NQ, Qeq, Qdiv, Qmult, Qplus, Qinv, inject_Z.
  cbn -[Z.mul Z.add Z.of_nat]. lia.
Qed.

Lemma llama_blend (c w : nat) :
  (NQ c / 3.5 + NQ w * 0.3 == (20 * Z.of_nat c + 21 * Z.of_nat w) # 70)%Q.
Proof.
  unfold NQ, Qeq, Qdiv, Qmult, Qplus, Qinv, inject_Z.
  cbn -[Z.mul Z.add Z.of_nat]. lia.
Qed.

Lemma dense_blend_closed (c w : nat) :
  ((NQ c / 4) * 0.7 + (NQ w * 1.3) * 0.3
   == (35 * Z.of_nat c + 78 * Z.of_nat w) # 200)%Q.
Proof.
  unfold NQ, Qeq, Qdiv, Qmult, Qplus, Qinv, inject_Z.
  cbn -[Z.mul Z.add Z.of_nat]. lia.
Qed.

Lemma heuristic_anthropic_closed (text : string) :
  Tokenizers._heuristic_count_anthropic text
  = ((Z.of_nat (String.length text) + Z.of_nat (split_len text)) / 4)%Z.
Proof.
  unfold Tokenizers._heuristic_count_anthropic.
  rewrite trunc_floor.
  - rewrite (Qfloor_comp _ _ (anthropic_blend _ _)). reflexivity.
  - rewrite anthropic_blend. unfold Qle. cbn -[Z.mul Z.add Z.of_nat]. lia.
Qed.

Lemma heuristic_llama_closed (text : string) :
  Tokenizers._heuristic_count_llama text
  = ((20 * Z.of_nat (String.length text) + 21 * Z.of_nat (split_len text))
     / 70)%Z.
Proof.
  unfold Tokenizers._heuristic_count_llama.
  rewrite trunc_floor.
  - rewrite (Qfloor_comp _ _ (llama_blend _ _)). reflexivity.
  - rewrite llama_blend. unfold Qle. cbn -[Z.mul Z.add Z.of_nat]. lia.
Qed.

(** The number of words of a text is at most half its length, rounded
    up. *)
Lemma count_words_bound (l : list ascii) (inword : bool) :
  2 * count_words inword l <= List.length l + (if inword then 0 else 1).
Proof.
  revert inword. induction l as [|c r IH]; intros inword; simpl.
  - destruct inword; lia.
  - destruct (isspace c).
    + specialize (IH false). simpl in IH. destruct inword; lia.
    + destruct inword.
      * specialize (IH true). simpl in IH. lia.
      * specialize (IH true). simpl in IH. lia.
Qed.

Lemma chars_length (text : string) :
  List.length (chars text) = String.length text.
Proof.
  unfold chars. induction text as [|c r IH]; simpl; [reflexivity|].
  now rewrite IH.
Qed.

Lemma split_len_bound (text : string) :
  (2 * Z.of_nat (split_len text) <= Z.of_nat (String.length text) + 1)%Z.
Proof.
  pose proof (count_words_bound (chars text) false) as H.
  rewrite chars_length in H. unfold split_len. lia.
Qed.

Lemma split_len_empty_length (text : string) :
  String.length text = 0 -> split_len text = 0.
Proof. destruct text; [reflexivity | discriminate]. Qed.

Lemma heuristic_closed (text : string) :
  text <> EmptyString ->
  Tokenizers._heuristic_count text
  = Z.max 1 ((35 * Z.of_nat (String.length text)
              + 78 * Z.of_nat (split_len text)) / 200)%Z.
Proof.
  intros Hne. unfold Tokenizers._heuristic_count.
  destruct text as [|c r]; [congruence|].
  rewrite trunc_floor.
  - rewrite (Qfloor_comp _ _ (dense_blend_closed _ _)). reflexivity.
  - rewrite dense_blend_closed. unfold Qle. cbn -[Z.mul Z.add Z.of_nat]. lia.
Qed.

(** X3.  For the tokenizer kind "anthropic", in any case and with blanks
    around it, [count_tokens] returns the count of the cl100k_base encoder
    when the tokenizer module gives a positive one.  When the module is
    missing, fails or counts no token, it returns the whole part of
    (characters + words) / 4. *)
Theorem anthropic_count_is_the_encoder_count_or_a_quarter :
  forall (tiktoken : Tokenizers.tiktoken_module) (kind text : string),
    strip (lower kind) = "anthropic" ->
    Tokenizers.count_tokens tiktoken kind text
    = match Tokenizers._count_with_tiktoken tiktoken text "cl100k_base" with
      | Some (S n) => Z.of_nat (S n)
      | _ => ((Z.of_nat (String.length text) + Z.of_nat (split_len text)) / 4)%Z
      end.
Proof.
  intros tk kind text Hkind. unfold Tokenizers.count_tokens.
  rewrite Hkind. cbn [String.eqb Ascii.eqb Bool.eqb]. simpl String.eqb.
  unfold Tokenizers.or_else. rewrite heuristic_anthropic_closed.
  destruct (Tokenizers._count_with_tiktoken tk text "cl100k_base") as [[|n]|];
    reflexivity.
Qed.

Lemma anthropic_count_is_the_encoder_count_or_a_quarter_witness :
  Tokenizers.count_tokens None " Anthropic " "hello world" = 3%Z.
Proof.
  rewrite (anthropic_count_is_the_encoder_count_or_a_quarter None
             " Anthropic " "hello world");
    [reflexivity | vm_compute; reflexivity].
Defined.

(** X4.  For the tokenizer kinds "llama", "qwen" and "alibaba",
    [count_tokens] returns the count of the gpt2 encoder when the tokenizer
    module gives a positive one.  Otherwise it returns the whole part of
    characters / 3.5 + 0.3 * words, which is (20 * characters + 21 * words)
    div 70. *)
Theorem llama_count_is_the_encoder_count_or_a_blend :
  forall (tiktoken : Tokenizers.tiktoken_module) (kind text : string),
    strip (lower kind) = "llama" \/ strip (lower kind) = "qwen"
    \/ strip (lower kind) = "alibaba" ->
    Tokenizers.count_tokens tiktoken kind text
    = match Tokenizers._count_with_tiktoken tiktoken text "gpt2" with
      | Some (S n) => Z.of_nat (S n)
      | _ => ((20 * Z.of_nat (String.length text)
               + 21 * Z.of_nat (split_len text)) / 70)%Z
      end.
Proof.
  intros tk kind text Hkind. unfold Tokenizers.count_tokens.
  destruct Hkind as [-> | [-> | ->]]; simpl String.eqb; cbn [orb];
    unfold Tokenizers.or_else; rewrite heuristic_llama_closed;
    destruct (Tokenizers._count_with_tiktoken tk text "gpt2") as [[|n]|];
    reflexivity.
Qed.

Lemma llama_count_is_the_encoder_count_or_a_blend_witness :
  Tokenizers.count_tokens None "Qwen" "hello world" = 3%Z.
Proof.
  rewrite (llama_count_is_the_encoder_count_or_a_blend None "Qwen"
             "hello world");
    [reflexivity | right; left; vm_compute; reflexivity].
Defined.

(** X5.  Without the tokenizer module, the estimate of [count_tokens] never
    exceeds the number of characters of the text, whatever the tokenizer
    kind. *)
Theorem estimate_is_at_most_the_number_of_characters :
  forall (kind text : string),
    (Tokenizers.count_tokens None kind text
     <= Z.of_nat (String.length text))%Z.
Proof.
  intros kind text.
  pose proof (split_len_bound text) as Hw.
  assert (Ha : (Tokenizers._heuristic_count_anthropic text
                <= Z.of_nat (String.length text))%Z).
  { rewrite heuristic_anthropic_closed.
    apply Z.div_le_upper_bound; lia. }
  assert (Hl : (Tokenizers._heuristic_count_llama text
                <= Z.of_nat (String.length text))%Z).
  { rewrite heuristic_llama_closed.
    apply Z.div_le_upper_bound; [lia|].
    destruct (String.length text) eqn:E; [|lia].
    rewrite (split_len_empty_length text E). simpl. lia. }
  assert (Hg : (Tokenizers._heuristic_count text
                <= Z.of_nat (String.length text))%Z).
  { destruct text as [|c r] eqn:E; [simpl; lia|]. rewrite <- E in *.
    rewrite heuristic_closed by (subst; discriminate).
    assert (1 <= Z.of_nat (String.length text))%Z by (subst; simpl; lia).
    apply Z.max_lub; [assumption|].
    apply Z.div_le_upper_bound; lia. }
  unfold Tokenizers.count_tokens, Tokenizers._count_with_tiktoken,
    Tokenizers.or_else.
  split_ifs; assumption.
Qed.

(** ** The requests of an invocation *)


Lemma nth_error_at_split {A : Type} (done todo : list A) :
  nth_error (done ++ todo) (List.length done) = hd_error todo.
Proof.
  rewrite nth_error_app2, Nat.sub_diag by lia. now destruct todo.
Qed.

Section Requests.
Variable access_check : bool.
Variable region : string.
Variable attempt : string -> result Invocation.invocation.



(** Every request but the last one failed, and a run that returns returns
    what the last request returned. *)
Lemma variant_loop_last_request :
  forall fuel variants i last_error trace res trace',
    Invocation.variant_loop access_check region attempt fuel variants i
      last_error trace = Some (res, trace') ->
    exists sent,
      trace' = (trace ++ sent)%list
      /\ (forall before v after,
             sent = (before ++ v :: after)%list -> after <> [] ->
             exists e, attempt v = Raise e)
      /\ (forall r, res = Ok r ->
             exists before v,
               sent = (before ++ [v])%list /\ attempt v = Ok r).
Proof.
  induction fuel as [|f IH];
    intros variants i last_error trace res trace' Hrun; [discriminate|].
  cbn [Invocation.variant_loop] in Hrun.
  destruct (nth_error variants i) as [v|] eqn:Hnth.
  - destruct (attempt v) as [r|e] eqn:Hatt.
    + injection Hrun as <- <-. exists [v]. split; [reflexivity|]. split.
      * intros before v' after Hs Hne.
        destruct before as [|b before]; simpl in Hs.
        -- injection Hs as <- <-. congruence.
        -- injection Hs as _ Hs. now destruct before.
      * intros r' Hr. injection Hr as <-. exists [], v. auto.
    + destruct (Invocation.on_error access_check region variants v e)
        as [e'|variants' le'] eqn:Herr.
      * injection Hrun as <- <-. exists [v]. split; [reflexivity|]. split.
        -- intros before v' after Hs Hne.
           destruct before as [|b before]; simpl in Hs.
           ++ injection Hs as <- <-. congruence.
           ++ injection Hs as _ Hs. now destruct before.
        -- intros r' Hr. discriminate.
      * apply IH in Hrun as (sent & -> & Hfail & Hok).
        exists (v :: sent). split; [now rewrite <- app_assoc|]. split.
        -- intros before v' after Hs Hne.
           destruct before as [|b before]; simpl in Hs.
           ++ injection Hs as <- _. eauto.
           ++ injection Hs as _ Hs. eapply Hfail; eauto.
        -- intros r Hr. destruct (Hok r Hr) as (before & v' & -> & Hv').
           exists (v :: before), v'. auto.
  - injection Hrun as <- <-. exists []. split; [now rewrite app_nil_r|].
    split.
    + intros before v after Hs. now destruct before.
    + intros r Hr. discriminate.
Qed.

(** A request whose error the handlers do not pass on is the last one. *)
Lemma variant_loop_stops_on_abort :
  forall fuel variants i last_error trace res trace',
    Invocation.variant_loop access_check region attempt fuel variants i
      last_error trace = Some (res, trace') ->
    exists sent,
      trace' = (trace ++ sent)%list
      /\ forall before v after e e',
           sent = (before ++ v :: after)%list ->
           attempt v = Raise e ->
           (forall vs, Invocation.on_error access_check region vs v e
                       = Invocation.Abort e') ->
           after = [] /\ res = Raise e'.
Proof.
  induction fuel as [|f IH];
    intros variants i last_error trace res trace' Hrun; [discriminate|].
  cbn [Invocation.variant_loop] in Hrun.
  destruct (nth_error variants i) as [vid|] eqn:Hnth.
  - destruct (attempt vid) as [r|e0] eqn:Hatt.
    + injection Hrun as <- <-. exists [vid]. split; [reflexivity|].
      intros before v after e e' Hs Hv Hab.
      destruct before as [|b before]; simpl in Hs.
      * injection Hs as <- <-. congruence.
      * injection Hs as _ Hs. now destruct before.
    + destruct (Invocation.on_error access_check region variants vid e0)
        as [e1|variants' le'] eqn:Herr.
      * injection Hrun as <- <-. exists [vid]. split; [reflexivity|].
        intros before v after e e' Hs Hv Hab.
        destruct before as [|b before]; simpl in Hs.
        -- injection Hs as <- <-. split; [reflexivity|].
           rewrite Hatt in Hv. injection Hv as <-.
           rewrite Hab in Herr. congruence.
        -- injection Hs as _ Hs. now destruct before.
      * apply IH in Hrun as (sent & -> & Hstop).
        exists (vid :: sent). split; [now rewrite <- app_assoc|].
        intros before v after e e' Hs Hv Hab.
        destruct before as [|b before]; simpl in Hs.
        -- injection Hs as <- <-. rewrite Hatt in Hv. injection Hv as <-.
           rewrite Hab in Herr. discriminate.
        -- injection Hs as _ Hs. eapply Hstop; eauto.
  - injection Hrun as <- <-. exists []. split; [now rewrite app_nil_r|].
    intros before v after e e' Hs. now destruct before.
Qed.

End Requests.






Lemma invoke_converse_is_loop self prompt model_id gen_params tok uip cfg :
  inference_config_of gen_params = Ok cfg ->
  exists fuel,
    Invocation.variant_loop true (Invocation.region_name self)
      (Evaluator.converse_attempt self prompt cfg tok) fuel
      (Invocation.converse_variants (Invocation.region_name self) model_id uip)
      0 None []
    = Some (Evaluator._invoke_converse self prompt model_id gen_params tok uip).
Proof.
  intros Hcfg. unfold Evaluator._invoke_converse.
  unfold inference_config_of in Hcfg. rewrite Hcfg.
  apply run_variants_is_loop.
Qed.

Lemma invoke_converse_without_config self prompt model_id gen_params tok uip e :
  inference_config_of gen_params = Raise e ->
  Evaluator._invoke_converse self prompt model_id gen_params tok uip
  = (Raise e, []).
Proof.
  intros Hcfg. unfold Evaluator._invoke_converse.
  unfold inference_config_of in Hcfg. now rewrite Hcfg.
Qed.

Lemma converse_attempt_ok self prompt cfg tok v text out inp :
  Evaluator.converse_attempt self prompt cfg tok v = Ok (text, out, inp) ->
  exists response,
    Invocation.converse self v prompt cfg = Ok response
    /\ text = Evaluator.response_text_of (Invocation.content response)
    /\ inp = Invocation.inputTokens response
    /\ (Invocation.outputTokens response <> 0%Z ->
        out = Invocation.outputTokens response)
    /\ (Invocation.outputTokens response = 0%Z ->
        Evaluator.py_count_tokens self tok text = Ok out).
Proof.
  unfold Evaluator.converse_attempt.
  destruct (Invocation.converse self v prompt cfg) as [response|e];
    cbn [bind]; [|discriminate].
  destruct (Invocation.outputTokens response =? 0)%Z eqn:E.
  - apply Z.eqb_eq in E.
    destruct (Evaluator.py_count_tokens self tok _) as [n|e] eqn:Hn;
      cbn [bind]; [|discriminate].
    intros H; injection H as <- <- <-. exists response.
    repeat split; auto. congruence.
  - apply Z.eqb_neq in E. cbn [bind].
    intros H; injection H as <- <- <-. exists response.
    repeat split; auto. congruence.
Qed.

Lemma converse_attempt_raise self prompt cfg tok v e :
  Invocation.converse self v prompt cfg = Raise e ->
  Evaluator.converse_attempt self prompt cfg tok v = Raise e.
Proof.
  intros H. unfold Evaluator.converse_attempt. now rewrite H.
Qed.

(** X7.  When [_invoke_converse] returns, it returns the answer to its last
    request: the text is the concatenation of the text items of that
    answer, the input tokens are the reported ones, and the output tokens
    are the reported ones, or the estimate of the text when 0 was reported.
    Every earlier request of the call failed. *)
Theorem converse_returns_the_answer_to_its_last_request :
  forall (self : Invocation.env) (prompt model_id : string)
         (gen_params tokenizer_type : pyval) (use_inference_profile : bool)
         (requests : list string) (text : string) (output input : Z),
    Evaluator._invoke_converse self prompt model_id gen_params tokenizer_type
      use_inference_profile = (Ok (text, output, input), requests) ->
    exists cfg earlier v response,
      inference_config_of gen_params = Ok cfg
      /\ requests = (earlier ++ [v])%list
      /\ Invocation.converse self v prompt cfg = Ok response
      /\ text = Evaluator.response_text_of (Invocation.content response)
      /\ input = Invocation.inputTokens response
      /\ (Invocation.outputTokens response <> 0%Z ->
          output = Invocation.outputTokens response)
      /\ (Invocation.outputTokens response = 0%Z ->
          Evaluator.py_count_tokens self tokenizer_type text = Ok output)
      /\ forall w, In w earlier ->
           exists e,
             Evaluator.converse_attempt self prompt cfg tokenizer_type w
             = Raise e.
Proof.
  intros self prompt model_id gen_params tok uip requests text output input
         Hrun.
  destruct (inference_config_of gen_params) as [cfg|e] eqn:Hcfg;
    [|rewrite (invoke_converse_without_config _ _ _ _ _ _ _ Hcfg) in Hrun;
      discriminate].
  destruct (invoke_converse_is_loop self prompt model_id gen_params tok uip
              cfg Hcfg) as [fuel Hloop].
  rewrite Hrun in Hloop.
  apply variant_loop_last_request in Hloop as (sent & Hs & Hfail & Hok).
  simpl in Hs. subst sent.
  destruct (Hok _ eq_refl) as (earlier & v & -> & Hv).
  apply converse_attempt_ok in Hv
    as (response & Hresp & Htext & Hin & Hout & Hest).
  exists cfg, earlier, v, response. repeat split; auto.
  intros w Hw. apply in_split in Hw as (before & after & ->).
  apply (Hfail before w (after ++ [v])%list).
  - now rewrite <- app_assoc.
  - now destruct after.
Qed.

Lemma converse_returns_the_answer_to_its_last_request_witness :
  exists cfg earlier v response,
    inference_config_of (VDict []) = Ok cfg
    /\ ["us.anthropic.claude-3"; "us.anthropic.claude-3:0";
        "anthropic.claude-3"] = (earlier ++ [v])%list
    /\ Invocation.converse
         (example_env "us-east-2" (picky_client "anthropic.claude-3")
            unused_body) v "Hi" cfg = Ok response.
Proof.
  destruct (converse_returns_the_answer_to_its_last_request
              (example_env "us-east-2" (picky_client "anthropic.claude-3")
                 unused_body)
              "Hi" "anthropic.claude-3" (VDict []) (VStr "anthropic") false
              ["us.anthropic.claude-3"; "us.anthropic.claude-3:0";
               "anthropic.claude-3"]
              "{}" 7%Z 12%Z)
    as (cfg & earlier & v & response & Hcfg & Hreq & Hresp & _).
  - vm_compute. reflexivity.
  - exists cfg, earlier, v, response. repeat split; assumption.
Defined.

(** X8.  In [_invoke_converse], a service error whose code is not
    [ValidationException] and whose message mentions neither an inference
    profile nor on-demand throughput ends the call: the failing request is
    the last one, and the exception raised carries the code, the message and
    the identifier tried (the remediation text for the access error). *)
Theorem converse_stops_at_a_service_error_outside_validation :
  forall (self : Invocation.env) (prompt model_id : string)
         (gen_params tokenizer_type : pyval) (use_inference_profile : bool)
         (res : result Invocation.invocation)
         (requests before after : list string) (v : string)
         (cfg : Invocation.inference_config)
         (code message : option string) (text : string),
    Evaluator._invoke_converse self prompt model_id gen_params tokenizer_type
      use_inference_profile = (res, requests) ->
    requests = (before ++ v :: after)%list ->
    inference_config_of gen_params = Ok cfg ->
    Invocation.converse self v prompt cfg
    = Raise (ClientError code message text) ->
    Invocation.opt_default "Unknown" code <> "ValidationException" ->
    Invocation.mentions_profile (Invocation.opt_default text message) = false ->
    after = []
    /\ res = Raise
               (Invocation.Exception
                  (if Invocation.is_access_error
                        (Invocation.opt_default "Unknown" code)
                        (Invocation.opt_default text message)
                   then Invocation.access_remediation v
                          (Invocation.region_name self)
                   else service_error_text
                          (Invocation.opt_default "Unknown" code)
                          (Invocation.opt_default text message) v)).
Proof.
  intros self prompt model_id gen_params tok uip res requests before after v
         cfg code message text Hrun Hsplit Hcfg Herr Hcode Hprofile.
  destruct (invoke_converse_is_loop self prompt model_id gen_params tok uip
              cfg Hcfg) as [fuel Hloop].
  rewrite Hrun in Hloop.
  apply variant_loop_stops_on_abort in Hloop as (sent & Hs & Hstop).
  simpl in Hs. subst sent.
  eapply Hstop; [exact Hsplit | apply converse_attempt_raise, Herr|].
  intros vs. unfold Invocation.on_error. cbn [andb].
  destruct (Invocation.is_access_error _ _); [reflexivity|].
  rewrite Hprofile.
  apply String.eqb_neq in Hcode. rewrite Hcode. reflexivity.
Qed.

Lemma converse_stops_at_a_service_error_outside_validation_witness :
  fst (Evaluator._invoke_converse
         (example_env "us-east-2" throttling_client unused_body)
         "Hi" "anthropic.claude-3" (VDict []) (VStr "anthropic") false)
  = Raise (Invocation.Exception
             "Bedrock API error (ThrottlingException): Too many requests, please wait before trying again. (tried model ID: us.anthropic.claude-3)").
Proof.
  refine (proj2 (converse_stops_at_a_service_error_outside_validation
                   (example_env "us-east-2" throttling_client unused_body)
                   "Hi" "anthropic.claude-3" (VDict []) (VStr "anthropic")
                   false _ ["us.anthropic.claude-3"] [] []
                   "us.anthropic.claude-3"
                   {| Invocation.maxTokens := VInt 512;
                      Invocation.temperature := VFloat (FFin 0.2);
                      Invocation.topP := VFloat (FFin 0.95) |}
                   (Some "ThrottlingException")
                   (Some "Too many requests, please wait before trying again.")
                   "An error occurred (ThrottlingException) when calling the Converse operation"
                   _ eq_refl eq_refl eq_refl _ _)).
  - vm_compute. reflexivity.
  - intros H. discriminate H.
  - vm_compute. reflexivity.
Defined.

(** X9.  In [_invoke_model_direct] a service error reaches the loop wrapped
    in a plain exception whose text names the code and the message.  When
    that text contains neither "ValidationException" nor a mention of an
    inference profile or of on-demand throughput, the call ends at that
    request and raises "Failed to invoke model with ID '<id>': " followed by
    the text. *)
Theorem direct_stops_at_a_service_error_outside_validation :
  forall (self : Invocation.env) (prompt model_id provider : string)
         (gen_params tokenizer_type : pyval) (use_inference_profile : bool)
         (res : result Invocation.invocation)
         (requests before after : list string) (v : string)
         (code message : option string) (text : string),
    Evaluator._invoke_model_direct self prompt model_id provider gen_params
      tokenizer_type use_inference_profile = (res, requests) ->
    requests = (before ++ v :: after)%list ->
    Invocation.invoke_body self prompt v provider gen_params tokenizer_type
    = Raise (ClientError code message text) ->
    contains "ValidationException"
      (wrapped_service_error (Invocation.opt_default "Unknown" code)
         (Invocation.opt_default text message)) = false ->
    Invocation.mentions_profile
      (wrapped_service_error (Invocation.opt_default "Unknown" code)
         (Invocation.opt_default text message)) = false ->
    after = []
    /\ res = Raise
               (Invocation.Exception
                  (direct_error_text v
                     (Invocation.opt_default "Unknown" code)
                     (Invocation.opt_default text message))).
Proof.
  intros self prompt model_id provider gen_params tok uip res requests before
         after v code message text Hrun Hsplit Herr Hval Hprofile.
  unfold Evaluator._invoke_model_direct in Hrun.
  match type of Hrun with
  | Invocation.run_variants ?a ?r ?t ?vs = _ =>
      destruct (run_variants_is_loop a r t vs) as [fuel Hloop]
  end.
  rewrite Hrun in Hloop.
  apply variant_loop_stops_on_abort in Hloop as (sent & Hs & Hstop).
  simpl in Hs. subst sent.
  eapply Hstop; [exact Hsplit | |].
  - cbv beta. unfold Evaluator._try_invoke_model_direct. rewrite Herr.
    reflexivity.
  - intros vs. unfold Invocation.on_error, Invocation.Exception.
    fold (wrapped_service_error (Invocation.opt_default "Unknown" code)
            (Invocation.opt_default text message)).
    rewrite Hprofile, Hval. reflexivity.
Qed.

Lemma direct_stops_at_a_service_error_outside_validation_witness :
  fst (Evaluator._invoke_model_direct
         (example_env "us-east-1" denying_client refusing_body)
         "Hi" "meta.llama3" "meta" (VDict []) (VStr "llama") false)
  = Raise (Invocation.Exception
             "Failed to invoke model with ID 'meta.llama3': Bedrock API error (AccessDeniedException): You don't have access to the model with the specified model ID.").
Proof.
  refine (proj2 (direct_stops_at_a_service_error_outside_validation
                   (example_env "us-east-1" denying_client refusing_body)
                   "Hi" "meta.llama3" "meta" (VDict []) (VStr "llama") false
                   _ ["meta.llama3"] [] [] "meta.llama3"
                   (Some "AccessDeniedException")
                   (Some "You don't have access to the model with the specified model ID.")
                   "An error occurred (AccessDeniedException) when calling the InvokeModel operation"
                   _ eq_refl eq_refl _ _)).
  - vm_compute. reflexivity.
  - vm_compute. reflexivity.
  - vm_compute. reflexivity.
Defined.

Section Exhaustion.
Variable access_check : bool.
Variable region : string.
Variable attempt : string -> result Invocation.invocation.
Variable message_of : string -> string.

Lemma last_error_after_cons last_error v todo :
  last_error_after message_of (Some (message_of v)) todo
  = last_error_after message_of last_error (v :: todo).
Proof.
  unfold last_error_after. simpl.
  destruct (rev todo) as [|w r] eqn:E; reflexivity.
Qed.

(** When every request fails and its error is passed on without a new
    variant, the loop requests the whole queue and raises the summary
    error. *)
Lemma variant_loop_exhausts :
  forall fuel done todo last_error trace r,
    (forall v, In v todo ->
       exists e,
         attempt v = Raise e
         /\ Invocation.on_error access_check region (done ++ todo) v e
            = Invocation.Next (done ++ todo) (message_of v)) ->
    Invocation.variant_loop access_check region attempt fuel (done ++ todo)
      (List.length done) last_error trace = Some r ->
    r = (Raise (Invocation.all_failed
                  (last_error_after message_of last_error todo)
                  (done ++ todo)),
         (trace ++ todo)%list).
Proof.
  induction fuel as [|f IH]; intros done todo last_error trace r Hall Hrun;
    [discriminate|].
  cbn [Invocation.variant_loop] in Hrun.
  rewrite nth_error_at_split in Hrun.
  destruct todo as [|v todo]; cbn [hd_error] in Hrun.
  - injection Hrun as <-. rewrite !app_nil_r. reflexivity.
  - destruct (Hall v (or_introl eq_refl)) as (e & Hatt & Herr).
    rewrite Hatt, Herr in Hrun.
    replace (done ++ v :: todo)%list with ((done ++ [v]) ++ todo)%list in *
      by now rewrite <- app_assoc.
    replace (S (List.length done)) with (List.length (done ++ [v])) in Hrun
      by (rewrite length_app; simpl; lia).
    apply IH in Hrun.
    + rewrite Hrun, (last_error_after_cons last_error), <- !app_assoc. reflexivity.
    + intros w Hw. apply Hall. now right.
Qed.

End Exhaustion.

Lemma converse_variants_has_model_id region model_id uip :
  In model_id (Invocation.converse_variants region model_id uip).
Proof.
  unfold Invocation.converse_variants. apply dedup_In.
  destruct (Invocation.is_profile_id uip model_id); [now left|].
  apply in_or_app. right. now left.
Qed.

(** X10.  When the service rejects every identifier variant with a
    [ValidationException] whose message mentions no inference profile,
    [_invoke_converse] requests all the variants, in order and once each,
    and raises the error of the last one followed by the list of all
    attempted identifiers. *)
Theorem converse_reports_every_rejected_identifier :
  forall (self : Invocation.env) (prompt model_id : string)
         (gen_params tokenizer_type : pyval) (use_inference_profile : bool)
         (cfg : Invocation.inference_config) (message : string),
    inference_config_of gen_params = Ok cfg ->
    (forall v,
        In v (Invocation.converse_variants (Invocation.region_name self)
                model_id use_inference_profile) ->
        exists text,
          Invocation.converse self v prompt cfg
          = Raise (ClientError (Some "ValidationException") (Some message)
                     text)) ->
    Invocation.mentions_profile message = false ->
    let variants :=
      Invocation.converse_variants (Invocation.region_name self) model_id
        use_inference_profile in
    Evaluator._invoke_converse self prompt model_id gen_params tokenizer_type
      use_inference_profile
    = (Raise
         (Invocation.Exception
            (service_error_text "ValidationException" message
               (last variants model_id)
             ++ " All attempted model IDs: "
             ++ Invocation.join_quoted variants)),
       variants).
Proof.
  intros self prompt model_id gen_params tok uip cfg message Hcfg Hall Hprofile
         variants.
  destruct (invoke_converse_is_loop self prompt model_id gen_params tok uip
              cfg Hcfg) as [fuel Hloop].
  fold variants in Hloop.
  apply (variant_loop_exhausts true (Invocation.region_name self) _
           (service_error_text "ValidationException" message) fuel []
           variants None []) in Hloop.
  - rewrite Hloop. simpl. unfold Invocation.all_failed. repeat f_equal.
    unfold last_error_after.
    assert (Hne : variants <> []).
    { intros H.
      pose proof (converse_variants_has_model_id
                    (Invocation.region_name self) model_id uip) as Hin.
      fold variants in Hin. rewrite H in Hin. exact Hin. }
    destruct (exists_last Hne) as (front & w & Hv). rewrite Hv.
    rewrite rev_app_distr, last_last. reflexivity.
  - intros v Hv. destruct (Hall v Hv) as [text Hconv].
    exists (ClientError (Some "ValidationException") (Some message) text).
    split; [apply converse_attempt_raise, Hconv|].
    unfold Invocation.on_error. cbn [andb Invocation.opt_default].
    unfold Invocation.is_access_error. cbn [String.eqb]. simpl andb.
    rewrite Hprofile. reflexivity.
Qed.

Lemma converse_reports_every_rejected_identifier_witness :
  Evaluator._invoke_converse
    (example_env "us-east-1" rejecting_client unused_body)
    "Hi" "anthropic.claude-3:0" (VDict []) (VStr "anthropic") false
  = (Raise
       (Invocation.Exception
          "Bedrock API error (ValidationException): The provided model identifier is invalid. (tried model ID: anthropic.claude-3) All attempted model IDs: 'anthropic.claude-3:0', 'anthropic.claude-3'"),
     ["anthropic.claude-3:0"; "anthropic.claude-3"]).
Proof.
  refine (converse_reports_every_rejected_identifier
            (example_env "us-east-1" rejecting_client unused_body)
            "Hi" "anthropic.claude-3:0" (VDict []) (VStr "anthropic") false
            {| Invocation.maxTokens := VInt 512;
               Invocation.temperature := VFloat (FFin 0.2);
               Invocation.topP := VFloat (FFin 0.95) |}
            "The provided model identifier is invalid." eq_refl _ _).
  - intros v _. eexists. reflexivity.
  - vm_compute. reflexivity.
Defined.

Section ProfileFallback.
Variable access_check : bool.
Variable region : string.
Variable attempt : string -> result Invocation.invocation.

(** The service answers the profile identifiers and asks for a profile on
    any other one. *)
Hypothesis asks_for_profile :
  forall w, can_append w = true ->
    exists e,
      attempt w = Raise e
      /\ forall q, exists last_error,
           Invocation.on_error access_check region q w e
           = Invocation.Next (Invocation.with_profile_variant q w) last_error.
Hypothesis answers_profile :
  forall w, can_append w = false -> exists r, attempt w = Ok r.

Lemma variant_loop_reaches_a_profile :
  forall fuel done todo last_error trace res trace',
    todo <> [] ->
    (forall d, In d done -> can_append d = true) ->
    Invocation.variant_loop access_check region attempt fuel (done ++ todo)
      (List.length done) last_error trace = Some (res, trace') ->
    exists r sent v,
      res = Ok r
      /\ trace' = (trace ++ sent ++ [v])%list
      /\ (forall w, In w sent -> can_append w = true)
      /\ can_append v = false
      /\ attempt v = Ok r.
Proof.
  induction fuel as [|f IH];
    intros done todo last_error trace res trace' Hne Hdone Hrun;
    [discriminate|].
  cbn [Invocation.variant_loop] in Hrun.
  rewrite nth_error_at_split in Hrun.
  destruct todo as [|w todo]; [congruence|]. cbn [hd_error] in Hrun.
  destruct (can_append w) eqn:Hw.
  - destruct (asks_for_profile w Hw) as (e & Hatt & Herr).
    destruct (Herr (done ++ w :: todo)%list) as [le Hle].
    rewrite Hatt, Hle in Hrun.
    assert (Hq : exists todo',
               Invocation.with_profile_variant (done ++ w :: todo) w
               = ((done ++ [w]) ++ todo')%list
               /\ todo' <> []).
    { unfold Invocation.with_profile_variant. fold (can_append w).
      rewrite Hw.
      destruct (existsb (String.eqb ("us." ++ w)) (done ++ w :: todo))
        eqn:Hex.
      - exists todo. split; [now rewrite <- app_assoc|].
        apply existsb_eqb_In in Hex.
        apply in_app_or in Hex as [Hin|[Heq|Hin]].
        + apply Hdone in Hin. rewrite can_append_profile in Hin.
          discriminate.
        + rewrite Heq, can_append_profile in Hw. discriminate.
        + intros ->. destruct Hin.
      - exists (todo ++ [("us." ++ w)%string])%list.
        split; [now rewrite <- !app_assoc|]. now destruct todo. }
    destruct Hq as (todo' & Hq & Hne').
    rewrite Hq in Hrun.
    replace (S (List.length done)) with (List.length (done ++ [w])) in Hrun
      by (rewrite length_app; simpl; lia).
    apply IH in Hrun as (r & sent & v & -> & -> & Hsent & Hv & Hr);
      [|exact Hne'|].
    + exists r, (w :: sent), v. rewrite <- !app_assoc.
      split; [reflexivity|]. split; [reflexivity|].
      split; [|split; assumption].
      intros x [<-|Hx]; auto.
    + intros d Hd. apply in_app_or in Hd as [Hd|[<-|[]]]; auto.
  - destruct (answers_profile w Hw) as [r Hr]. rewrite Hr in Hrun.
    injection Hrun as <- <-. exists r, [], w.
    split; [reflexivity|]. split; [reflexivity|].
    split; [intros x []|split; assumption].
Qed.

End ProfileFallback.

(** X11.  When the service answers the identifiers that start with "us." or
    "global." and, for any other identifier, raises an error that mentions
    an inference profile or on-demand throughput, [_invoke_converse]
    returns: its last request bears a profile identifier, whose answer is
    returned, and every earlier request bore a plain one. *)
Theorem converse_reaches_an_inference_profile :
  forall (self : Invocation.env) (prompt model_id : string)
         (gen_params : pyval) (tokenizer : string)
         (use_inference_profile : bool) (cfg : Invocation.inference_config),
    inference_config_of gen_params = Ok cfg ->
    (forall w, can_append w = true ->
       exists code message text,
         Invocation.converse self w prompt cfg
         = Raise (ClientError code message text)
         /\ Invocation.mentions_profile (Invocation.opt_default text message)
            = true
         /\ Invocation.is_access_error
              (Invocation.opt_default "Unknown" code)
              (Invocation.opt_default text message) = false) ->
    (forall w, can_append w = false ->
       exists response, Invocation.converse self w prompt cfg = Ok response) ->
    exists answer earlier v,
      Evaluator._invoke_converse self prompt model_id gen_params
        (VStr tokenizer) use_inference_profile
      = (Ok answer, (earlier ++ [v])%list)
      /\ (forall w, In w earlier -> can_append w = true)
      /\ can_append v = false
      /\ Evaluator.converse_attempt self prompt cfg (VStr tokenizer) v
         = Ok answer.
Proof.
  intros self prompt model_id gen_params tokenizer uip cfg Hcfg Hask Hans.
  destruct (invoke_converse_is_loop self prompt model_id gen_params
              (VStr tokenizer) uip cfg Hcfg) as [fuel Hloop].
  destruct (Evaluator._invoke_converse self prompt model_id gen_params
              (VStr tokenizer) uip) as [res requests].
  apply (variant_loop_reaches_a_profile true (Invocation.region_name self)
           (Evaluator.converse_attempt self prompt cfg (VStr tokenizer)))
    with (done := []) in Hloop.
  - destruct Hloop as (r & sent & v & -> & -> & Hsent & Hv & Hr).
    exists r, sent, v. auto.
  - intros w Hw. destruct (Hask w Hw) as (code & message & text & Hc & Hp & Ha).
    exists (ClientError code message text).
    split; [now apply converse_attempt_raise|].
    intros q. eexists. unfold Invocation.on_error.
    rewrite Ha, Hp. reflexivity.
  - intros w Hw. destruct (Hans w Hw) as [response Hresp].
    unfold Evaluator.converse_attempt. rewrite Hresp. cbn [bind].
    destruct (Invocation.outputTokens response =? 0)%Z;
      cbn [Evaluator.py_count_tokens bind]; eauto.
  - intros H.
    pose proof (converse_variants_has_model_id (Invocation.region_name self)
                  model_id uip) as Hin.
    rewrite H in Hin. exact Hin.
  - intros d [].
Qed.

Lemma converse_reaches_an_inference_profile_witness :
  exists answer earlier v,
    Evaluator._invoke_converse
      (example_env "us-east-1" profile_only_client unused_body)
      "Hi" "anthropic.claude-3" (VDict []) (VStr "anthropic") false
    = (Ok answer, (earlier ++ [v])%list)
    /\ can_append v = false.
Proof.
  destruct (converse_reaches_an_inference_profile
              (example_env "us-east-1" profile_only_client unused_body)
              "Hi" "anthropic.claude-3" (VDict []) "anthropic" false
              {| Invocation.maxTokens := VInt 512;
                 Invocation.temperature := VFloat (FFin 0.2);
                 Invocation.topP := VFloat (FFin 0.95) |}
              eq_refl)
    as (answer & earlier & v & Hrun & _ & Hv & _).
  - intros w Hw. cbn [example_env Invocation.converse].
    unfold profile_only_client. rewrite Hw.
    eexists _, _, _. split; [reflexivity|].
    split; vm_compute; reflexivity.
  - intros w Hw. cbn [example_env Invocation.converse].
    unfold profile_only_client. rewrite Hw. eexists. reflexivity.
  - exists answer, earlier, v. split; [exact Hrun | exact Hv].
Defined.

(** X12.  When the service rejects every identifier variant with a
    [ValidationException] whose text mentions no inference profile,
    [_invoke_model_direct] requests all the variants, in order and once
    each, and raises the wrapped error of the last one followed by the list
    of all attempted identifiers. *)
Theorem direct_reports_every_rejected_identifier :
  forall (self : Invocation.env) (prompt model_id provider : string)
         (gen_params tokenizer_type : pyval) (use_inference_profile : bool)
         (message : string),
    (forall v,
        In v (Invocation.direct_variants (Invocation.region_name self)
                provider model_id use_inference_profile) ->
        exists text,
          Invocation.invoke_body self prompt v provider gen_params
            tokenizer_type
          = Raise (ClientError (Some "ValidationException") (Some message)
                     text)) ->
    Invocation.mentions_profile
      (wrapped_service_error "ValidationException" message) = false ->
    let variants :=
      Invocation.direct_variants (Invocation.region_name self) provider
        model_id use_inference_profile in
    Evaluator._invoke_model_direct self prompt model_id provider gen_params
      tokenizer_type use_inference_profile
    = (Raise
         (Invocation.Exception
            (direct_error_text (last variants model_id)
               "ValidationException" message
             ++ " All attempted model IDs: "
             ++ Invocation.join_quoted variants)),
       variants).
Proof.
  intros self prompt model_id provider gen_params tok uip message Hall
         Hprofile variants.
  unfold Evaluator._invoke_model_direct. fold variants.
  match goal with
  | |- Invocation.run_variants ?a ?r ?t ?vs = _ =>
      destruct (run_variants_is_loop a r t vs) as [fuel Hloop]
  end.
  apply (variant_loop_exhausts false (Invocation.region_name self) _
           (fun v => direct_error_text v "ValidationException" message)
           fuel [] variants None []) in Hloop.
  - rewrite Hloop. simpl app. unfold Invocation.all_failed. f_equal. f_equal.
    unfold last_error_after.
    assert (Hne : variants <> []).
    { intros H.
      assert (Hin : In model_id variants).
      { unfold variants, Invocation.direct_variants. apply dedup_In.
        destruct (Invocation.is_profile_id uip model_id); [now left|].
        apply in_or_app. right. now left. }
      rewrite H in Hin. exact Hin. }
    destruct (exists_last Hne) as (front & w & Hv). rewrite Hv.
    rewrite rev_app_distr, last_last. reflexivity.
  - intros v Hv. destruct (Hall v Hv) as [text Hbody].
    exists (Invocation.Exception
              (wrapped_service_error "ValidationException" message)).
    split.
    + unfold Evaluator._try_invoke_model_direct. rewrite Hbody. reflexivity.
    + unfold Invocation.on_error, Invocation.Exception.
      rewrite Hprofile.
      assert (Hc : contains "ValidationException"
                     (wrapped_service_error "ValidationException" message)
                   = true).
      { unfold wrapped_service_error.
        apply contains_app_r, contains_app_l. reflexivity. }
      rewrite Hc. reflexivity.
Qed.

Lemma direct_reports_every_rejected_identifier_witness :
  Evaluator._invoke_model_direct
    (example_env "us-east-1" denying_client rejecting_body)
    "Hi" "meta.llama3" "meta" (VDict []) (VStr "llama") false
  = (Raise
       (Invocation.Exception
          "Failed to invoke model with ID 'meta.llama3:0': Bedrock API error (ValidationException): The provided model identifier is invalid. All attempted model IDs: 'meta.llama3', 'meta.llama3:0'"),
     ["meta.llama3"; "meta.llama3:0"]).
Proof.
  refine (direct_reports_every_rejected_identifier
            (example_env "us-east-1" denying_client rejecting_body)
            "Hi" "meta.llama3" "meta" (VDict []) (VStr "llama") false
            "The provided model identifier is invalid." _ _).
  - intros v _. eexists. reflexivity.
  - vm_compute. reflexivity.
Defined.

(** ** Validation and records *)

(** X13.  [_validate_json_with_cleaning] reports a text as valid exactly
    when it returns a payload, and a payload it returns is not empty and is
    accepted by [json.loads]. *)
Theorem validator_returns_only_parsing_payloads :
  forall (text : string),
    match Validator._validate_json_with_cleaning text with
    | (is_valid, Some cleaned) =>
        is_valid = true /\ Json.parses cleaned = true
        /\ cleaned <> EmptyString
    | (is_valid, None) => is_valid = false
    end.
Proof.
  intros text.
  destruct (Validator._validate_json_with_cleaning text) as [b payload] eqn:E.
  pose proof (validate_sound text b payload E) as H.
  destruct payload as [c|]; [|exact H].
  destruct H as [Hb Hp]. repeat split; auto.
  intros ->. discriminate.
Qed.

(** A record either has no response and the initial validation fields, or
    holds the response of the invocation and what the validation block made
    of it. *)
Lemma evaluate_prompt_fields self prompt model prompt_id expected_json
  run_id m :
  Evaluator.evaluate_prompt self prompt model prompt_id expected_json run_id
  = Ok m ->
  Evaluator.run_id m = match run_id with
                       | Some r => r
                       | None => Invocation.uuid4_prefix self
                       end
  /\ Evaluator.prompt_id m = prompt_id
  /\ Evaluator.input_prompt m = prompt
  /\ Evaluator.model_name m = dict_get model "name" (VStr "unknown")
  /\ Evaluator.model_id m = dict_get model "bedrock_model_id" (VStr "unknown")
  /\ ((Evaluator.response m = None
       /\ validation_fields m = (Some false, None, None)
       /\ Evaluator.output_tokens m = 0%Z)
      \/ exists text,
           Evaluator.response m = Some text
           /\ validation_fields m
              = Evaluator.validation text (Evaluator.output_tokens m)
                  expected_json).
Proof.
  intros Hrun. unfold Evaluator.evaluate_prompt in Hrun.
  destruct (py_lower _) as [provider|e]; cbn [bind] in Hrun; [|discriminate].
  destruct (Evaluator.py_count_tokens self _ prompt) as [estimate|e];
    cbn [bind] in Hrun; [|discriminate].
  destruct (fst (Evaluator._invoke_model self prompt model provider _))
    as [[[text output] input]|e].
  - destruct (Evaluator.validation text output expected_json)
      as [[valid cleaned] original] eqn:Hval.
    destruct (ModelRegistry.get_model_pricing model) as [pricing|e].
    + injection Hrun as <-. cbn. repeat split; try reflexivity.
      right. exists text. split; [reflexivity|].
      unfold validation_fields. cbn. now rewrite Hval.
    + unfold Evaluator.on_exception in Hrun.
      destruct e; try discriminate; injection Hrun as <-; cbn;
        (repeat split; try reflexivity);
        right; exists text; (split; [reflexivity|]);
        unfold validation_fields; cbn; now rewrite Hval.
  - unfold Evaluator.on_exception in Hrun.
    destruct e; try discriminate; injection Hrun as <-; cbn;
      (repeat split; try reflexivity);
      left; repeat split; reflexivity.
Qed.

Lemma validation_spec text output expected_json valid cleaned original :
  Evaluator.validation text output expected_json = (valid, cleaned, original) ->
  (forall c, cleaned = Some c ->
     valid = Some true /\ Json.parses c = true /\ original = None)
  /\ (forall o, original = Some o ->
        expected_json = true /\ valid = Some false /\ o = take 500 text)
  /\ (valid = None <->
      expected_json = false
      /\ (strip text = EmptyString \/ output = 0%Z)).
Proof.
  unfold Evaluator.validation.
  destruct (String.eqb text EmptyString || String.eqb (strip text) EmptyString
            || (output =? 0)%Z) eqn:Eblank.
  - assert (Hb : strip text = EmptyString \/ output = 0%Z).
    { apply orb_true_iff in Eblank as [E|E].
      - apply orb_true_iff in E as [E|E]; apply String.eqb_eq in E.
        + left. subst text. reflexivity.
        + now left.
      - right. now apply Z.eqb_eq. }
    intros Hv. injection Hv as <- <- <-.
    split; [discriminate|]. split; [discriminate|].
    destruct expected_json; split; try discriminate; auto.
    intros [? _]. discriminate.
  - apply orb_false_iff in Eblank as [E Eo].
    apply orb_false_iff in E as [_ Es].
    apply String.eqb_neq in Es. apply Z.eqb_neq in Eo.
    match goal with
    | |- (let '(is_valid, cleaned_json) := ?f in _) = _ -> _ =>
        assert (Hs : match snd f with
                     | Some c => fst f = true /\ Json.parses c = true
                     | None => fst f = false
                     end);
        [|destruct f as [b [c|]]]
    end.
    + destruct (negb (fst (Validator._validate_json_with_cleaning text))
                && expected_json).
      * destruct (negb (String.eqb (Evaluator.aggressive_clean text) text)).
        -- destruct (Validator._validate_json_with_cleaning
                       (Evaluator.aggressive_clean text)) as [b p] eqn:E.
           exact (validate_sound _ _ _ E).
        -- destruct (Validator._validate_json_with_cleaning text)
             as [b p] eqn:E.
           exact (validate_sound _ _ _ E).
      * destruct (Validator._validate_json_with_cleaning text) as [b p] eqn:E.
        exact (validate_sound _ _ _ E).
    + cbn [fst snd] in Hs. destruct Hs as [-> Hp]. cbn [andb].
      destruct (String.eqb c EmptyString), expected_json; cbn [negb];
        intros Hv; injection Hv as <- <- <-;
        (split; [intros c' Hc'; try discriminate;
                 injection Hc' as <-; auto|]);
        (split; [intros o Ho; discriminate|]);
        (split; [discriminate|]); intros [? [?|?]]; congruence.
    + cbn [fst snd] in Hs. subst b.
      destruct expected_json; intros Hv; injection Hv as <- <- <-;
        (split; [intros c' Hc'; discriminate|]);
        (split; [intros o Ho; try discriminate; injection Ho as <-; auto|]);
        (split; [discriminate|]); intros [? [?|?]]; congruence.
Qed.

(** X14.  In a record returned by [evaluate_prompt], a cleaned response is
    present only with [json_valid] true, and is then accepted by
    [json.loads], with no original response beside it.  An original response
    is present only when JSON was expected and [json_valid] is false, and is
    then the first 500 characters of the response.  [json_valid] is null
    exactly when JSON was not expected and the response is blank or has 0
    output tokens. *)
Theorem validation_fields_agree_with_the_response :
  forall (self : Invocation.env) (prompt : string) (model : pydict)
         (prompt_id : option Z) (expected_json : bool)
         (run_id : option string) (m : Evaluator.metrics),
    Evaluator.evaluate_prompt self prompt model prompt_id expected_json run_id
    = Ok m ->
    (forall c, Evaluator.cleaned_response m = Some c ->
       Evaluator.json_valid m = Some true /\ Json.parses c = true
       /\ Evaluator.original_response m = None)
    /\ (forall o, Evaluator.original_response m = Some o ->
          expected_json = true /\ Evaluator.json_valid m = Some false
          /\ exists text,
               Evaluator.response m = Some text /\ o = take 500 text)
    /\ (Evaluator.json_valid m = None <->
        expected_json = false
        /\ exists text,
             Evaluator.response m = Some text
             /\ (strip text = EmptyString
                 \/ Evaluator.output_tokens m = 0%Z)).
Proof.
  intros self prompt model prompt_id expected_json run_id m Hrun.
  apply evaluate_prompt_fields in Hrun
    as (_ & _ & _ & _ & _ & [(Hresp & Hval & _) | (text & Hresp & Hval)]).
  - unfold validation_fields in Hval. injection Hval as Hv Hc Ho.
    rewrite Hresp, Hv, Hc, Ho.
    split; [discriminate|]. split; [discriminate|].
    split; [discriminate|]. intros (_ & text & Ht & _). discriminate.
  - unfold validation_fields in Hval. symmetry in Hval.
    apply validation_spec in Hval as (Hc & Ho & Hn).
    split; [exact Hc|]. split.
    + intros o Hor. destruct (Ho o Hor) as (He & Hv & Hcut).
      repeat split; auto. exists text. auto.
    + rewrite Hn. split.
      * intros [He Hb]. split; [exact He|]. exists text. auto.
      * intros (He & text' & Ht & Hb). split; [exact He|]. congruence.
Qed.

Lemma validation_fields_agree_with_the_response_witness :
  exists m,
    Evaluator.evaluate_prompt
      (example_env "us-east-1" (answering_client 12 7) unused_body)
      "List three colours as JSON." example_model (Some 1%Z) true None = Ok m
    /\ forall c, Evaluator.cleaned_response m = Some c ->
         Evaluator.json_valid m = Some true /\ Json.parses c = true
         /\ Evaluator.original_response m = None.
Proof.
  eexists. split; [vm_compute; reflexivity|].
  refine (proj1 (validation_fields_agree_with_the_response
                   (example_env "us-east-1" (answering_client 12 7)
                      unused_body)
                   "List three colours as JSON." example_model (Some 1%Z)
                   true None _ _)).
  vm_compute. reflexivity.
Defined.




(** For a model whose provider and tokenizer are strs and a client that
    raises exceptions only, [evaluate_prompt] returns a record. *)
Lemma evaluate_prompt_returns self prompt model prompt_id expected_json
  run_id :
  names_are_strings model ->
  client_raises_exceptions_only self ->
  exists m,
    Evaluator.evaluate_prompt self prompt model prompt_id expected_json run_id
    = Ok m.
Proof.
  intros [[p Hp] [t Ht]] Hclient.
  unfold Evaluator.evaluate_prompt.
  rewrite Hp, Ht. cbn [py_lower bind Evaluator.py_count_tokens].
  pose proof (invoke_model_never_base self prompt model (lower p)
                (ModelRegistry.get_generation_params model) Hclient) as Hinv.
  destruct (fst (Evaluator._invoke_model self prompt model (lower p)
                   (ModelRegistry.get_generation_params model)))
    as [[[text output] input]|e].
  - destruct (Evaluator.validation text output expected_json)
      as [[valid cleaned] original].
    pose proof (get_model_pricing_never_base model) as Hpr.
    destruct (ModelRegistry.get_model_pricing model) as [pricing|e].
    + eexists. reflexivity.
    + match goal with
      | |- context [Evaluator.on_exception self ?m ?l e] =>
          destruct (on_exception_spec self m l e Hpr eq_refl) as (m' & -> & _)
      end.
      exists m'. reflexivity.
  - match goal with
    | |- context [Evaluator.on_exception self ?m ?l e] =>
        destruct (on_exception_spec self m l e Hinv eq_refl) as (m' & -> & _)
    end.
    exists m'. reflexivity.
Qed.

Lemma evaluate_row_keys self row models run_id ms :
  Evaluator.evaluate_row self row models run_id = Ok ms ->
  map record_key ms
  = map (fun model =>
           (Evaluator.row_prompt row, Evaluator.row_prompt_id row,
            dict_get model "name" (VStr "unknown"), run_id))
        models.
Proof.
  revert ms. induction models as [|model rest IH]; intros ms H;
    cbn [Evaluator.evaluate_row] in H.
  - injection H as <-. reflexivity.
  - destruct (Evaluator.evaluate_prompt self _ model _ _ _) as [m|e] eqn:Hm;
      cbn [bind] in H; [|discriminate].
    destruct (Evaluator.evaluate_row self row rest run_id) as [ms'|e];
      cbn [bind] in H; [|discriminate].
    injection H as <-. cbn [map]. rewrite (IH ms' eq_refl). f_equal.
    apply evaluate_prompt_fields in Hm as (Hr & Hp & Hi & Hn & _).
    unfold record_key. now rewrite Hr, Hp, Hi, Hn.
Qed.

Lemma evaluate_rows_keys self rows models run_id ms :
  Evaluator.evaluate_rows self rows models run_id = Ok ms ->
  map record_key ms = expected_keys rows models run_id.
Proof.
  revert ms. induction rows as [|row rest IH]; intros ms H;
    cbn [Evaluator.evaluate_rows] in H.
  - injection H as <-. reflexivity.
  - unfold expected_keys. cbn [filter].
    destruct (String.eqb (Evaluator.row_prompt row) EmptyString);
      cbn [negb].
    + now apply IH.
    + destruct (Evaluator.evaluate_row self row models run_id) as [here|e]
        eqn:Hhere; cbn [bind] in H; [|discriminate].
      destruct (Evaluator.evaluate_rows self rest models run_id)
        as [after|e]; cbn [bind] in H; [|discriminate].
      injection H as <-. cbn [flat_map]. rewrite map_app.
      rewrite (evaluate_row_keys _ _ _ _ _ Hhere), (IH after eq_refl).
      reflexivity.
Qed.

Lemma evaluate_row_returns self row models run_id :
  Forall names_are_strings models ->
  client_raises_exceptions_only self ->
  exists ms, Evaluator.evaluate_row self row models run_id = Ok ms.
Proof.
  intros Hmodels Hclient. induction Hmodels as [|model rest Hm _ IH];
    cbn [Evaluator.evaluate_row].
  - eauto.
  - destruct (evaluate_prompt_returns self (Evaluator.row_prompt row) model
                (Evaluator.row_prompt_id row) (Evaluator.row_expected_json row)
                (Some run_id) Hm Hclient) as [m ->].
    destruct IH as [ms ->]. cbn [bind]. eauto.
Qed.

Lemma evaluate_rows_returns self rows models run_id :
  Forall names_are_strings models ->
  client_raises_exceptions_only self ->
  exists ms, Evaluator.evaluate_rows self rows models run_id = Ok ms.
Proof.
  intros Hmodels Hclient. induction rows as [|row rest [after IH]];
    cbn [Evaluator.evaluate_rows].
  - eauto.
  - destruct (String.eqb (Evaluator.row_prompt row) EmptyString); [eauto|].
    destruct (evaluate_row_returns self row models run_id Hmodels Hclient)
      as [here ->].
    rewrite IH. cbn [bind]. eauto.
Qed.

(** X15.  For models whose provider and tokenizer are strs and a client that
    raises nothing outside [Exception], [evaluate_prompts_batch] returns one
    record for each row with a non-empty prompt and each model, rows first
    and models in order within a row, and no record for a row with an empty
    prompt.  Each record bears the prompt and the prompt id of its row, the
    name of its model and the run id of the batch. *)
Theorem batch_returns_one_record_per_prompt_and_model :
  forall (self : Invocation.env) (prompts_df : list Evaluator.prompt_row)
         (models : list pydict) (run_id : option string),
    Forall names_are_strings models ->
    client_raises_exceptions_only self ->
    exists ms,
      Evaluator.evaluate_prompts_batch self prompts_df models run_id = Ok ms
      /\ map record_key ms
         = expected_keys prompts_df models
             (match run_id with
              | Some r => r
              | None => Invocation.uuid4_prefix self
              end).
Proof.
  intros self prompts_df models run_id Hmodels Hclient.
  unfold Evaluator.evaluate_prompts_batch.
  destruct (evaluate_rows_returns self prompts_df models
              (match run_id with
               | Some r => r
               | None => Invocation.uuid4_prefix self
               end) Hmodels Hclient) as [ms Hms].
  exists ms. split; [exact Hms|].
  now apply (evaluate_rows_keys self).
Qed.

Lemma batch_returns_one_record_per_prompt_and_model_witness :
  exists ms,
    Evaluator.evaluate_prompts_batch
      (example_env "us-east-1" (answering_client 12 7) unused_body)
      example_prompts [example_model; example_model] (Some "run-1") = Ok ms
    /\ map record_key ms
       = expected_keys example_prompts [example_model; example_model] "run-1".
Proof.
  apply (batch_returns_one_record_per_prompt_and_model
           (example_env "us-east-1" (answering_client 12 7) unused_body)
           example_prompts [example_model; example_model] (Some "run-1")).
  - repeat constructor; eexists; vm_compute; reflexivity.
  - split; intros; exact I.
Defined.

Lemma dict_get_missing (d : pydict) (key : string) (default : pyval) :
  lookup key d = None -> dict_get d key default = default.
Proof. unfold dict_get. now intros ->. Qed.

(** X16.  For a model configuration without [bedrock_model_id] whose
    provider is not "anthropic", [_invoke_model] raises an [AttributeError]
    before any request is sent, and [evaluate_prompt] returns a record with
    status "error", the text of that error, the model id "unknown", no
    response, the estimated input tokens and 0 output tokens. *)
Theorem model_without_identifier_gives_an_error_record :
  forall (self : Invocation.env) (prompt : string) (model : pydict)
         (prompt_id : option Z) (expected_json : bool)
         (run_id : option string),
    names_are_strings model ->
    lookup "bedrock_model_id" model = None ->
    provider_of model <> "anthropic" ->
    Evaluator._invoke_model self prompt model (provider_of model)
      (ModelRegistry.get_generation_params model)
    = (Raise (PyError "AttributeError"
                "'NoneType' object has no attribute 'lower'"), [])
    /\ exists m,
         Evaluator.evaluate_prompt self prompt model prompt_id expected_json
           run_id = Ok m
         /\ Evaluator.status m = "error"
         /\ Evaluator.error m
            = Some "'NoneType' object has no attribute 'lower'"
         /\ Evaluator.model_id m = VStr "unknown"
         /\ Evaluator.response m = None
         /\ Evaluator.input_tokens m
            = estimated_input_tokens self model prompt
         /\ Evaluator.output_tokens m = 0%Z
         /\ Evaluator.latency_ms m = Invocation.elapsed_ms self.
Proof.
  intros self prompt model prompt_id expected_json run_id [[p Hp] [t Ht]]
         Hid Hprov.
  assert (Hinv : Evaluator._invoke_model self prompt model (provider_of model)
                   (ModelRegistry.get_generation_params model)
                 = (Raise (PyError "AttributeError"
                             "'NoneType' object has no attribute 'lower'"),
                    [])).
  { unfold Evaluator._invoke_model.
    rewrite (dict_get_missing model "bedrock_model_id" VNone Hid).
    unfold Evaluator.bad_model_id.
    apply String.eqb_neq in Hprov. rewrite Hprov. reflexivity. }
  split; [exact Hinv|].
  unfold provider_of in Hinv. rewrite Hp in Hinv.
  unfold Evaluator.evaluate_prompt, estimated_input_tokens.
  rewrite Hp, Ht. cbn [py_lower bind Evaluator.py_count_tokens].
  rewrite Hinv. cbn [fst].
  rewrite (dict_get_missing model "bedrock_model_id" (VStr "unknown") Hid).
  eexists. split; [reflexivity|]. cbn.
  destruct (Tokenizers.count_tokens (Invocation.tiktoken self) t prompt =? 0)%Z
    eqn:E; repeat split; reflexivity.
Qed.

Lemma model_without_identifier_gives_an_error_record_witness :
  exists m,
    Evaluator.evaluate_prompt
      (example_env "us-east-1" (answering_client 12 7) unused_body)
      "Say hello." [("name", VStr "titan"); ("provider", VStr "amazon")]
      None false None = Ok m
    /\ Evaluator.status m = "error"
    /\ Evaluator.error m = Some "'NoneType' object has no attribute 'lower'".
Proof.
  destruct (model_without_identifier_gives_an_error_record
              (example_env "us-east-1" (answering_client 12 7) unused_body)
              "Say hello." [("name", VStr "titan"); ("provider", VStr "amazon")]
              None false None)
    as (_ & m & Hm & Hst & Herr & _).
  - split; eexists; vm_compute; reflexivity.
  - reflexivity.
  - intros H. discriminate H.
  - exists m. repeat split; assumption.
Defined.

(** ** The report *)

Lemma list_sum_cons (a : nat) (l : list nat) :
  list_sum (a :: l) = a + list_sum l.
Proof. reflexivity. Qed.

Lemma of_model_count_absent (name : string) (keys : list string) :
  ~ In name keys ->
  forall r, Report.r_model_name r = name ->
  list_sum (map (fun k => if Report.of_model k r then 1 else 0) keys) = 0.
Proof.
  intros Hn r Hr. induction keys as [|k keys IH]; [reflexivity|].
  cbn [map]. rewrite list_sum_cons.
  destruct (Report.of_model k r) eqn:E.
  - apply of_model_eq in E. exfalso. apply Hn. left. congruence.
  - apply IH. intros H. apply Hn. now right.
Qed.

Lemma of_model_count_once (keys : list string) :
  NoDup keys ->
  forall r, In (Report.r_model_name r) keys ->
  list_sum (map (fun k => if Report.of_model k r then 1 else 0) keys) = 1.
Proof.
  induction 1 as [|k keys Hk Hnd IH]; intros r Hin; [destruct Hin|].
  cbn [map]. rewrite list_sum_cons.
  destruct (Report.of_model k r) eqn:E.
  - apply of_model_eq in E.
    rewrite (of_model_count_absent k keys Hk r E). reflexivity.
  - apply IH. destruct Hin as [Hin|Hin]; [|exact Hin].
    symmetry in Hin. apply of_model_eq in Hin. congruence.
Qed.

Lemma list_sum_map_add {A : Type} (f g : A -> nat) (l : list A) :
  list_sum (map (fun x => f x + g x) l)
  = list_sum (map f l) + list_sum (map g l).
Proof.
  induction l as [|x l IH]; [reflexivity|].
  cbn [map]. rewrite !list_sum_cons, IH. lia.
Qed.

(** Groups by distinct keys that cover the names split the frame. *)
Lemma groups_partition (keys : list string) (rows : Report.frame) :
  NoDup keys ->
  (forall r, In r rows -> In (Report.r_model_name r) keys) ->
  list_sum (map (fun k => List.length (filter (Report.of_model k) rows)) keys)
  = List.length rows.
Proof.
  intros Hnd. induction rows as [|r rows IH]; intros Hcover.
  - clear. induction keys as [|k keys IH]; [reflexivity|].
    cbn [map]. rewrite list_sum_cons, IH. reflexivity.
  - rewrite (map_ext _ (fun k => (if Report.of_model k r then 1 else 0)
                                 + List.length
                                     (filter (Report.of_model k) rows))).
    + rewrite list_sum_map_add, IH, of_model_count_once; auto.
      * apply Hcover. now left.
      * intros r' Hr'. apply Hcover. now right.
    + intros k. cbn [filter]. destruct (Report.of_model k r); reflexivity.
Qed.

(** X17.  The counts of the rows of a report add up to the number of
    status=success records of the frame: each success record is counted in
    exactly one row. *)
Theorem report_counts_add_up_to_the_success_records :
  forall (df : Report.frame),
    records_counted (Report.generate_report df)
    = List.length (filter Report.is_success df).
Proof.
  intros df. unfold records_counted.
  rewrite generate_report_rows, map_map.
  cbn [Report.s_count Report.summarise]. unfold successes_of.
  apply groups_partition.
  - apply sorted_NoDup, group_keys_sorted.
  - intros r Hr. apply group_keys_In. now apply in_map.
Qed.










Section OrderStatistics.
Variable xs : list Q.
Hypothesis some : xs <> [].












End OrderStatistics.

Lemma round_half_even_near (q : Q) :
  (Qfloor q <= round_half_even q <= Qfloor q + 1)%Z.
Proof.
  unfold round_half_even.
  destruct (Qcompare (Qred (q - inject_Z (Qfloor q))) (1 # 2));
    [destruct (Z.even (Qfloor q))| |]; lia.
Qed.

Lemma round_half_even_monotone (x y : Q) :
  (x <= y)%Q -> (round_half_even x <= round_half_even y)%Z.
Proof.
  intros Hxy.
  pose proof (Qfloor_resp_le _ _ Hxy) as Hf.
  pose proof (round_half_even_near x) as Hx.
  pose proof (round_half_even_near y) as Hy.
  destruct (Z.eq_dec (Qfloor x) (Qfloor y)) as [E|E]; [|lia].
  clear Hx Hy Hf. unfold round_half_even. rewrite <- E.
  destruct (Qcompare_spec (Qred (x - inject_Z (Qfloor x))) (1 # 2))
    as [Ex|Lx|Gx];
    destruct (Qcompare_spec (Qred (y - inject_Z (Qfloor x))) (1 # 2))
      as [Ey|Ly|Gy];
    rewrite ?Qred_correct in *;
    try (destruct (Z.even (Qfloor x))); try lia; exfalso; lra.
Qed.

Lemma round_to_monotone (d : nat) (x y : Q) :
  (x <= y)%Q -> (Report.round_to d x <= Report.round_to d y)%Q.
Proof.
  intros Hxy. unfold Report.round_to. rewrite !Qred_correct.
  assert (Hs : (0 < inject_Z (10 ^ Z.of_nat d))%Q).
  { change 0%Q with (inject_Z 0). rewrite <- Zlt_Qlt.
    apply Z.pow_pos_nonneg; lia. }
  set (scale := inject_Z (10 ^ Z.of_nat d)) in *.
  assert (Hm : (x * scale <= y * scale)%Q) by nra.
  apply round_half_even_monotone in Hm. rewrite Zle_Qle in Hm.
  apply Qle_shift_div_l; [exact Hs|].
  unfold Qdiv. rewrite <- Qmult_assoc, (Qmult_comm (/ scale)),
    Qmult_inv_r, Qmult_1_r; [exact Hm|].
  intros E. rewrite E in Hs. now apply Qlt_irrefl in Hs.
Qed.

Lemma report_row_group (df : Report.frame) (s : Report.summary) :
  In s (Report.generate_report df) ->
  s = Report.summarise df (Report.s_model_name s)
        (successes_of (Report.s_model_name s) df)
  /\ successes_of (Report.s_model_name s) df <> [].
Proof.
  intros Hs. rewrite generate_report_rows in Hs.
  apply in_map_iff in Hs as (name & <- & Hname).
  cbn [Report.s_model_name Report.summarise]. split; [reflexivity|].
  apply group_keys_In, in_map_iff in Hname as (r & Hn & Hr).
  assert (Hin : In r (successes_of name df)).
  { unfold successes_of. apply filter_In. split; [exact Hr|].
    now apply of_model_eq. }
  intros E. rewrite E in Hin. exact Hin.
Qed.



Lemma round_to_fixes_integers (d : nat) (z : Z) :
  (Report.round_to d (inject_Z z) == inject_Z z)%Q.
Proof.
  unfold Report.round_to. rewrite Qred_correct.
  assert (Hs : (0 < inject_Z (10 ^ Z.of_nat d))%Q).
  { change 0%Q with (inject_Z 0). rewrite <- Zlt_Qlt.
    apply Z.pow_pos_nonneg; lia. }
  rewrite <- inject_Z_mult.
  assert (Hr : forall k, round_half_even (inject_Z k) = k).
  { intros k. unfold round_half_even. rewrite Qfloor_Z.
    replace (Qred (inject_Z k - inject_Z k)) with 0%Q; [reflexivity|].
    symmetry. apply Qred_zero. ring. }
  rewrite Hr, inject_Z_mult. field.
  intros E. rewrite E in Hs. now apply Qlt_irrefl in Hs.
Qed.

(** X19.  In every row of a report, [json_valid_pct] lies between 0 and 100;
    it is 100 when every success record of the model is valid and 0 when
    none is. *)
Theorem valid_share_is_a_percentage :
  forall (df : Report.frame) (s : Report.summary),
    In s (Report.generate_report df) ->
    let group := successes_of (Report.s_model_name s) df in
    (0 <= Report.s_json_valid_pct s)%Q
    /\ (Report.s_json_valid_pct s <= 100)%Q
    /\ (forallb Report.r_json_valid group = true ->
        (Report.s_json_valid_pct s == 100)%Q)
    /\ (existsb Report.r_json_valid group = false ->
        (Report.s_json_valid_pct s == 0)%Q).
Proof.
  intros df s Hs group.
  destruct (report_row_group df s Hs) as [Hrow Hne]. fold group in Hrow, Hne.
  rewrite Hrow. cbn [Report.s_json_valid_pct Report.summarise].
  set (valid := List.length (filter Report.r_json_valid group)).
  set (n := List.length group).
  assert (Hn : 1 <= n) by (unfold n; destruct group; [congruence|simpl; lia]).
  assert (Hv : valid <= n) by apply filter_length_le.
  set (share := (NQ valid / NQ n * 100)%Q).
  assert (Hshare : match n with O => 0%Q | S _ => share end = share)
    by (destruct n; [lia | reflexivity]).
  rewrite Hshare.
  assert (Hnq : (0 < NQ n)%Q).
  { unfold NQ. change 0%Q with (inject_Z 0). rewrite <- Zlt_Qlt. lia. }
  assert (Hvq : (0 <= NQ valid)%Q /\ (NQ valid <= NQ n)%Q).
  { unfold NQ. change 0%Q with (inject_Z 0). rewrite <- !Zle_Qle. lia. }
  assert (Hratio : (0 <= NQ valid / NQ n)%Q /\ (NQ valid / NQ n <= 1)%Q).
  { split.
    - apply Qle_shift_div_l; [exact Hnq | lra].
    - apply Qle_shift_div_r; [exact Hnq | lra]. }
  assert (H0 : (0 <= share)%Q) by (unfold share; lra).
  assert (H100 : (share <= 100)%Q) by (unfold share; lra).
  pose proof (round_to_fixes_integers 2 0) as R0.
  pose proof (round_to_fixes_integers 2 100) as R100.
  change (inject_Z 0) with 0%Q in R0.
  change (inject_Z 100) with 100%Q in R100.
  split.
  { eapply Qle_trans; [|apply (round_to_monotone 2 0 share); lra].
    rewrite R0. apply Qle_refl. }
  split.
  { eapply Qle_trans; [apply (round_to_monotone 2 share 100); lra|].
    rewrite R100. apply Qle_refl. }
  split.
  - intros Hall.
    assert (E : valid = n).
    { unfold valid, n. clear -Hall.
      induction group as [|r g IH]; [reflexivity|].
      cbn [forallb] in Hall. apply andb_true_iff in Hall as [Hr Hg].
      cbn [filter]. rewrite Hr. cbn [List.length]. now rewrite IH. }
    assert (Es : (share == 100)%Q).
    { unfold share. rewrite E. field. lra. }
    apply Qle_antisym.
    + eapply Qle_trans; [apply (round_to_monotone 2 share 100); lra|].
      rewrite R100. apply Qle_refl.
    + eapply Qle_trans; [|apply (round_to_monotone 2 100 share); lra].
      rewrite R100. apply Qle_refl.
  - intros Hnone.
    assert (E : valid = 0).
    { unfold valid. clear -Hnone.
      induction group as [|r g IH]; [reflexivity|].
      cbn [existsb] in Hnone. apply orb_false_iff in Hnone as [Hr Hg].
      cbn [filter]. rewrite Hr. now apply IH. }
    assert (Es : (share == 0)%Q).
    { unfold share. rewrite E. change (NQ 0) with 0%Q. field. lra. }
    apply Qle_antisym.
    + eapply Qle_trans; [apply (round_to_monotone 2 share 0); lra|].
      rewrite R0. apply Qle_refl.
    + eapply Qle_trans; [|apply (round_to_monotone 2 0 share); lra].
      rewrite R0. apply Qle_refl.
Qed.

Lemma valid_share_is_a_percentage_witness :
  (Report.s_json_valid_pct example_summary == 100)%Q.
Proof.
  apply (valid_share_is_a_percentage example_frame example_summary).
  - vm_compute. left. reflexivity.
  - vm_compute. reflexivity.
Defined.
